(* ===================================================================== *)
(*  Career-Fair grid (app_capgemini.py): the state synchronisation core   *)
(*                                                                         *)
(*  Embedded from the source:                                              *)
(*    _ensure_schema, _key, _diff_rows, _ensure_folder_tree,               *)
(*    _access_token_from_refresh, _build_dbx_client, _refresh_dbx_client,  *)
(*    _upload_with_auto_refresh, write_state_df and the module-level       *)
(*    auto-save block.                                                     *)
(*                                                                         *)
(*  Conventions of the embedding                                           *)
(*    - text is String.string, over ASCII code points: str.strip() removes *)
(*      the ASCII white space of Python's str.isspace, str.lower() maps    *)
(*      'A'..'Z' to 'a'..'z';                                              *)
(*    - a pandas cell is a value of [cell]; only its str() text and        *)
(*      whether it is missing are ever inspected by the program;           *)
(*    - a DataFrame is column-major, with pairwise distinct labels (what   *)
(*      pandas.read_csv produces); the seven-column frames held in the     *)
(*      session are also kept row-major, as a list of [Row];               *)
(*    - time.time() values are rationals;                                  *)
(*    - Python exceptions are values of [exn]; effectful code runs in a    *)
(*      state monad whose state survives a raised exception.               *)
(* ===================================================================== *)

From Stdlib Require Import String Ascii List ZArith QArith Lia Bool.
From Stdlib Require Import DecimalString.
From Stdlib Require DecimalZ.
Import ListNotations.

Local Open Scope string_scope.
Local Open Scope list_scope.

Set Implicit Arguments.

(* ---------------------------------------------------------------------- *)
(** * Text: str.strip, str.lower                                           *)
(* ---------------------------------------------------------------------- *)

Module PyStr.

(** str.isspace on one ASCII character: \t \n \v \f \r, the four
    separators 0x1c..0x1f, and the blank. *)
Definition isspace (c : ascii) : bool :=
  let n := nat_of_ascii c in
  (Nat.leb 9 n && Nat.leb n 13) || (Nat.leb 28 n && Nat.leb n 32).

Fixpoint lstrip (s : string) : string :=
  match s with
  | EmptyString => EmptyString
  | String c r => if isspace c then lstrip r else s
  end.

Fixpoint rstrip (s : string) : string :=
  match s with
  | EmptyString => EmptyString
  | String c r =>
      match rstrip r with
      | EmptyString => if isspace c then EmptyString else String c EmptyString
      | r' => String c r'
      end
  end.

Definition strip (s : string) : string := rstrip (lstrip s).

Definition lower_char (c : ascii) : ascii :=
  let n := nat_of_ascii c in
  if Nat.leb 65 n && Nat.leb n 90 then ascii_of_nat (n + 32) else c.

Fixpoint lower (s : string) : string :=
  match s with
  | EmptyString => EmptyString
  | String c r => String (lower_char c) (lower r)
  end.

(** A string made of white space only. *)
Fixpoint blank (s : string) : bool :=
  match s with
  | EmptyString => true
  | String c r => isspace c && blank r
  end.

(** [x in s] for a one-character [x]. *)
Fixpoint contains_char (x : ascii) (s : string) : bool :=
  match s with
  | EmptyString => false
  | String c r => Ascii.eqb c x || contains_char x r
  end.

(** s.rstrip("/") *)
Fixpoint rstrip_char (x : ascii) (s : string) : string :=
  match s with
  | EmptyString => EmptyString
  | String c r =>
      match rstrip_char x r with
      | EmptyString => if Ascii.eqb c x then EmptyString else String c EmptyString
      | r' => String c r'
      end
  end.

(** s[: s.rfind(x) + 1] : the prefix up to and including the last [x]
    (empty when [x] does not occur). *)
Fixpoint upto_last (x : ascii) (s : string) : string :=
  match s with
  | EmptyString => EmptyString
  | String c r =>
      if contains_char x r then String c (upto_last x r)
      else if Ascii.eqb c x then String c EmptyString
      else EmptyString
  end.

(** s == x * len(s) *)
Fixpoint all_char (x : ascii) (s : string) : bool :=
  match s with
  | EmptyString => true
  | String c r => Ascii.eqb c x && all_char x r
  end.

(** posixpath.dirname:
      i = p.rfind('/') + 1; head = p[:i]
      if head and head != '/' * len(head): head = head.rstrip('/')
      return head *)
Definition dirname (p : string) : string :=
  let head := upto_last "/"%char p in
  if negb (head =? "") && negb (all_char "/"%char head)
  then rstrip_char "/"%char head else head.

(** str(n) for a Python int. *)
Definition of_int (z : Z) : string := NilZero.string_of_int (Z.to_int z).

End PyStr.

(* ---------------------------------------------------------------------- *)
(** * Cells and canonical rows                                             *)
(* ---------------------------------------------------------------------- *)

(** One pandas cell.  [VNaN] is the missing value; [VOther] is any other
    Python object (a float, a timestamp, ...), given by its str() text,
    which is all the program reads of it. *)
Inductive cell : Type :=
| VStr (s : string)
| VBool (b : bool)
| VInt (z : Z)
| VNaN
| VOther (repr : string).

Definition cell_eq_dec (a b : cell) : {a = b} + {a <> b}.
Proof.
  decide equality; auto using string_dec, bool_dec, Z.eq_dec.
Defined.

(** Series.astype(str), per element. *)
Definition astype_str (v : cell) : string :=
  match v with
  | VStr s => s
  | VBool true => "True"
  | VBool false => "False"
  | VInt z => PyStr.of_int z
  | VNaN => "nan"
  | VOther r => r
  end.

(** Series.fillna(""), per element. *)
Definition fillna_empty (v : cell) : cell :=
  match v with
  | VNaN => VStr ""
  | _ => v
  end.

(* Column labels *)
Definition FIRST := "first_name".
Definition LAST := "last_name".
Definition FILE := "file_name".
Definition SEEN := "seen".
Definition INT := "intend_view".
Definition SAVE := "cv_saved".
Definition CONT := "contacted".
Definition BOOL_COLS : list string := [SEEN; INT; SAVE; CONT].
Definition ALL_COLS : list string := FIRST :: LAST :: FILE :: BOOL_COLS.

(** The four flags of a candidate. *)
Record Flags : Type := mkFlags {
  seen : bool;
  intend_view : bool;
  cv_saved : bool;
  contacted : bool
}.

(** One row of a frame that has the canonical columns. *)
Record Row : Type := mkRow {
  first_name : cell;
  last_name : cell;
  file_name : cell;
  flags : Flags
}.

Definition Table := list Row.

Definition flags_eqb (a b : Flags) : bool :=
  Bool.eqb (seen a) (seen b) && Bool.eqb (intend_view a) (intend_view b)
  && Bool.eqb (cv_saved a) (cv_saved b) && Bool.eqb (contacted a) (contacted b).

Definition with_flags (r : Row) (f : Flags) : Row :=
  mkRow (first_name r) (last_name r) (file_name r) f.

(** The identity columns of a row. *)
Definition identity (r : Row) : cell * cell * cell :=
  (first_name r, last_name r, file_name r).

(* ---------------------------------------------------------------------- *)
(** * _key                                                                 *)
(* ---------------------------------------------------------------------- *)

(** One element of
      df[FIRST].fillna("").astype(str).str.strip().str.lower() + "||" +
      df[LAST ].fillna("").astype(str).str.strip().str.lower() + "||" +
      df[FILE ].fillna("").astype(str).str.strip()                        *)
Definition name_part (v : cell) : string :=
  PyStr.lower (PyStr.strip (astype_str (fillna_empty v))).

Definition file_part (v : cell) : string :=
  PyStr.strip (astype_str (fillna_empty v)).

Definition _key (r : Row) : string :=
  (name_part (first_name r) ++ "||" ++ name_part (last_name r) ++ "||" ++
   file_part (file_name r))%string.

(* ---------------------------------------------------------------------- *)
(** * Exceptions and results                                               *)
(* ---------------------------------------------------------------------- *)

(** The exception classes the handlers of the program tell apart:
    dropbox.exceptions.AuthError, dropbox.exceptions.ApiError, and every
    other subclass of Exception.  Each carries its str() text. *)
Inductive exn : Type :=
| AuthError (msg : string)
| ApiError (msg : string)
| PyError (msg : string).

Definition exn_str (e : exn) : string :=
  match e with
  | AuthError m => m
  | ApiError m => m
  | PyError m => m
  end.

Inductive result (A : Type) : Type :=
| Ok (a : A)
| Raise (e : exn).

Arguments Ok {A} a.
Arguments Raise {A} e.

Definition rbind {A B : Type} (r : result A) (k : A -> result B) : result B :=
  match r with
  | Ok a => k a
  | Raise e => Raise e
  end.

(* ---------------------------------------------------------------------- *)
(** * DataFrames and _ensure_schema                                        *)
(* ---------------------------------------------------------------------- *)

(** A frame: the length of its index and its columns, in order. *)
Record DataFrame : Type := mkDF {
  nrows : nat;
  columns : list (string * list cell)
}.

(** c in df *)
Definition has_col (c : string) (df : DataFrame) : bool :=
  existsb (fun p => fst p =? c) (columns df).

(** df[c]; KeyError when there is no such column. *)
Definition get_col (c : string) (df : DataFrame) : result (list cell) :=
  match find (fun p => fst p =? c) (columns df) with
  | Some p => Ok (snd p)
  | None => Raise (PyError ("'" ++ c ++ "'")%string)
  end.

Fixpoint replace_col (c : string) (v : list cell) (cs : list (string * list cell))
  : list (string * list cell) :=
  match cs with
  | [] => []
  | p :: r => if fst p =? c then (c, v) :: r else p :: replace_col c v r
  end.

(** df[c] = v : an existing column keeps its place, a new one goes last. *)
Definition set_col (c : string) (v : list cell) (df : DataFrame) : DataFrame :=
  if has_col c df
  then mkDF (nrows df) (replace_col c v (columns df))
  else mkDF (nrows df) (columns df ++ [(c, v)]).

(** df[c] = x for a scalar x : the scalar is repeated along the index. *)
Definition set_scalar (c : string) (x : cell) (df : DataFrame) : DataFrame :=
  set_col c (repeat x (nrows df)) df.

(** df[[c1, ..., cn]]; KeyError when a label is missing. *)
Fixpoint select_cols (cs : list string) (df : DataFrame)
  : result (list (string * list cell)) :=
  match cs with
  | [] => Ok []
  | c :: r =>
      rbind (get_col c df) (fun v =>
      rbind (select_cols r df) (fun vs => Ok ((c, v) :: vs)))
  end.

Definition select (cs : list string) (df : DataFrame) : result DataFrame :=
  rbind (select_cols cs df) (fun vs => Ok (mkDF (nrows df) vs)).

(** The dict given to Series.map in _ensure_schema. *)
Definition flag_vocabulary (s : string) : option bool :=
  if s =? "true" then Some true
  else if s =? "1" then Some true
  else if s =? "yes" then Some true
  else if s =? "y" then Some true
  else if s =? "false" then Some false
  else if s =? "0" then Some false
  else if s =? "no" then Some false
  else if s =? "n" then Some false
  else None.

(** One element of
      df[c].astype(str).str.strip().str.lower()
           .map({...}).fillna(False).astype(bool)                          *)
Definition coerce_flag (v : cell) : bool :=
  match flag_vocabulary (PyStr.lower (PyStr.strip (astype_str v))) with
  | Some b => b
  | None => false
  end.

(** for c in (FIRST, LAST, FILE): if c not in df: df[c] = "" *)
Definition ensure_identity (df : DataFrame) (c : string) : DataFrame :=
  if has_col c df then df else set_scalar c (VStr "") df.

(** The body of the loop over BOOL_COLS. *)
Definition ensure_flag (df : DataFrame) (c : string) : result DataFrame :=
  if negb (has_col c df) then Ok (set_scalar c (VBool false) df)
  else rbind (get_col c df) (fun ser =>
       Ok (set_col c (map (fun v => VBool (coerce_flag v)) ser) df)).

Fixpoint ensure_flags (cs : list string) (df : DataFrame) : result DataFrame :=
  match cs with
  | [] => Ok df
  | c :: r => rbind (ensure_flag df c) (ensure_flags r)
  end.

Definition _ensure_schema (df : DataFrame) : result DataFrame :=
  let df1 := fold_left ensure_identity [FIRST; LAST; FILE] df in
  rbind (ensure_flags BOOL_COLS df1) (fun df2 =>
  select (FIRST :: LAST :: FILE :: BOOL_COLS) df2).

(** The frame of a row-major canonical table. *)
Definition flag_col (f : Flags -> bool) (t : Table) : list cell :=
  map (fun r => VBool (f (flags r))) t.

Definition df_of_table (t : Table) : DataFrame :=
  mkDF (length t)
    [ (FIRST, map first_name t); (LAST, map last_name t); (FILE, map file_name t);
      (SEEN, flag_col seen t); (INT, flag_col intend_view t);
      (SAVE, flag_col cv_saved t); (CONT, flag_col contacted t) ].

(** Series.astype(int), per element, on the columns that reach it in
    write_state_df: a bool becomes 0 or 1, an int stays.  Any other cell
    (text, a missing value) is a conversion error here. *)
Definition astype_int (v : cell) : result cell :=
  match v with
  | VBool b => Ok (VInt (if b then 1 else 0))
  | VInt z => Ok (VInt z)
  | _ => Raise (PyError "cannot convert to int")
  end.

Fixpoint astype_int_col (l : list cell) : result (list cell) :=
  match l with
  | [] => Ok []
  | v :: r =>
      rbind (astype_int v) (fun v' =>
      rbind (astype_int_col r) (fun r' => Ok (v' :: r')))
  end.

(** for c in BOOL_COLS: out[c] = out[c].astype(int) *)
Fixpoint flags_to_int (cs : list string) (out : DataFrame) : result DataFrame :=
  match cs with
  | [] => Ok out
  | c :: r =>
      rbind (get_col c out) (fun ser =>
      rbind (astype_int_col ser) (fun ser' =>
      flags_to_int r (set_col c ser' out)))
  end.

(* ---------------------------------------------------------------------- *)
(** * The outside world                                                    *)
(* ---------------------------------------------------------------------- *)

(** dropbox.Dropbox(tok) *)
Record Dropbox : Type := mkDropbox { oauth2_access_token : string }.

(** The entries of st.secrets the write path reads. *)
Record Secrets : Type := mkSecrets {
  DROPBOX_ACCESS_TOKEN : option string;
  DROPBOX_APP_KEY : option string;
  DROPBOX_APP_SECRET : option string;
  DROPBOX_REFRESH_TOKEN : option string;
  STATE_DBX_PATH : option string      (* STATE_DBX_PATH_CAPGEMINI *)
}.

(** What the program calls and does not define: the token endpoint
    (requests.post, raise_for_status, json()["access_token"]), the two
    Dropbox SDK calls, and DataFrame.to_csv(index=False).  [W] is the
    state of the network and of the remote store; every call may raise. *)
Class Services (W : Type) : Type := {
  oauth2_token :
    string (* refresh_token *) -> string (* client_id *) ->
    string (* client_secret *) -> W -> result string * W;
  files_create_folder_v2 : Dropbox -> string -> W -> result unit * W;
  files_upload : Dropbox -> string -> string -> W -> result unit * W;
  to_csv : DataFrame -> string
}.

(** The calls made on the outside world, oldest first. *)
Inductive Event : Type :=
| EvToken
| EvCreateFolder (dbx : Dropbox) (path : string)
| EvUpload (dbx : Dropbox) (data path : string).

Definition is_upload (e : Event) : bool :=
  match e with EvUpload _ _ _ => true | _ => false end.

Definition is_token (e : Event) : bool :=
  match e with EvToken => true | _ => false end.

Definition uploads (t : list Event) : nat := length (filter is_upload t).
Definition refreshes (t : list Event) : nat := length (filter is_token t).

(** A row of curr_flags / of the snapshot: the row and its "_k" column. *)
Record KRow : Type := mkKRow { krow : Row; _k : string }.

(** Process state: the world, the calls made so far, the st.cache_resource
    slot of _build_dbx_client, the global DBX, and st.session_state
    (df, last_save_ts, snapshot_all; None when the key is not set). *)
Record State (W : Type) : Type := mkState {
  world : W;
  trace : list Event;
  cached_client : option Dropbox;
  DBX : option Dropbox;
  df : Table;
  last_save_ts : Q;
  snapshot_all : option (list KRow)
}.

Arguments mkState {W}.
Arguments world {W}.
Arguments trace {W}.
Arguments cached_client {W}.
Arguments DBX {W}.
Arguments df {W}.
Arguments last_save_ts {W}.
Arguments snapshot_all {W}.

(* ---------------------------------------------------------------------- *)
(** * The monad of the script: state, and exceptions that keep the state   *)
(* ---------------------------------------------------------------------- *)

Definition M (W A : Type) : Type := State W -> result A * State W.

Definition ret {W A : Type} (a : A) : M W A := fun s => (Ok a, s).

Definition raise {W A : Type} (e : exn) : M W A := fun s => (Raise e, s).

Definition bind {W A B : Type} (m : M W A) (k : A -> M W B) : M W B :=
  fun s =>
    match m s with
    | (Ok a, s') => k a s'
    | (Raise e, s') => (Raise e, s')
    end.

(** try: m  except Exception as e: h e *)
Definition try_with {W A : Type} (m : M W A) (h : exn -> M W A) : M W A :=
  fun s =>
    match m s with
    | (Ok a, s') => (Ok a, s')
    | (Raise e, s') => h e s'
    end.

Definition lift {W A : Type} (r : result A) : M W A := fun s => (r, s).

Definition get {W : Type} : M W (State W) := fun s => (Ok s, s).

Definition modify {W : Type} (f : State W -> State W) : M W unit :=
  fun s => (Ok tt, f s).

Declare Scope py_scope.
Delimit Scope py_scope with py.

Notation "x <- m ;; k" := (bind m (fun x => k))
  (at level 100, m at next level, right associativity) : py_scope.
Notation "m ;; k" := (bind m (fun _ => k))
  (at level 100, right associativity) : py_scope.

Definition set_world {W} (w : W) (s : State W) : State W :=
  mkState w (trace s) (cached_client s) (DBX s) (df s) (last_save_ts s) (snapshot_all s).
Definition log_event {W} (e : Event) (s : State W) : State W :=
  mkState (world s) (trace s ++ [e]) (cached_client s) (DBX s) (df s)
          (last_save_ts s) (snapshot_all s).
Definition set_cached_client {W} (c : option Dropbox) (s : State W) : State W :=
  mkState (world s) (trace s) c (DBX s) (df s) (last_save_ts s) (snapshot_all s).
Definition set_DBX {W} (c : option Dropbox) (s : State W) : State W :=
  mkState (world s) (trace s) (cached_client s) c (df s) (last_save_ts s) (snapshot_all s).
Definition set_df {W} (t : Table) (s : State W) : State W :=
  mkState (world s) (trace s) (cached_client s) (DBX s) t (last_save_ts s) (snapshot_all s).
Definition set_last_save_ts {W} (q : Q) (s : State W) : State W :=
  mkState (world s) (trace s) (cached_client s) (DBX s) (df s) q (snapshot_all s).
Definition set_snapshot_all {W} (k : option (list KRow)) (s : State W) : State W :=
  mkState (world s) (trace s) (cached_client s) (DBX s) (df s) (last_save_ts s) k.

(** One call on the outside world: it is logged, then answered. *)
Definition call {W A : Type} (e : Event) (f : W -> result A * W) : M W A :=
  fun s =>
    let s1 := log_event e s in
    let (r, w') := f (world s1) in
    (r, set_world w' s1).

(* ---------------------------------------------------------------------- *)
(** * Row identity and diff (pure)                                         *)
(* ---------------------------------------------------------------------- *)

(** frame["_k"] = _key(frame) *)
Definition with_key (t : Table) : list KRow :=
  map (fun r => mkKRow r (_key r)) t.

(** frame[["_k", *BOOL_COLS]] *)
Definition key_flags (t : list KRow) : list (string * Flags) :=
  map (fun c => (_k c, flags (krow c))) t.

Definition matches (k : string) (right : list (string * Flags)) : list (string * Flags) :=
  filter (fun o => fst o =? k) right.

(** left.merge(right, on="_k", how="left"): the rows of [left] in order,
    each once per row of [right] with its key, or once with missing values
    when there is none. *)
Definition merge_left (left : list KRow) (right : list (string * Flags))
  : list (KRow * option Flags) :=
  flat_map (fun c =>
    match matches (_k c) right with
    | [] => [(c, None)]
    | ms => map (fun o => (c, Some (snd o))) ms
    end) left.

(** merged[c] != merged[c + "_old"], per element: a missing old value
    compares unequal. *)
Definition flag_ne (new : bool) (old : option bool) : bool :=
  match old with
  | Some o => negb (Bool.eqb new o)
  | None => true
  end.

Definition changed (m : KRow * option Flags) : bool :=
  let f := flags (krow (fst m)) in
  flag_ne (seen f) (option_map seen (snd m))
  || flag_ne (intend_view f) (option_map intend_view (snd m))
  || flag_ne (cv_saved f) (option_map cv_saved (snd m))
  || flag_ne (contacted f) (option_map contacted (snd m)).

Definition _diff_rows (prev : option (list KRow)) (curr : list KRow) : list KRow :=
  match prev with
  | None => []
  | Some [] => []
  | Some p => map fst (filter changed (merge_left curr (key_flags p)))
  end.

(** new.combine_first(old), per element. *)
Definition combine_first (new : option bool) (old : bool) : bool :=
  match new with
  | Some b => b
  | None => old
  end.

(** The optimistic update of the auto-save block:
      full = df.copy(); full["_k"] = _key(full)
      delta = changed_rows[["_k", *BOOL_COLS]]
      full = full.merge(delta, on="_k", how="left", suffixes=("", "_new"))
      for c in BOOL_COLS: full[c] = full[c+"_new"].combine_first(full[c]).astype(bool)
      drop the "_new" columns and "_k"                                     *)
Definition merge_row (m : KRow * option Flags) : Row :=
  let r := krow (fst m) in
  let f := flags r in
  with_flags r
    (mkFlags (combine_first (option_map seen (snd m)) (seen f))
             (combine_first (option_map intend_view (snd m)) (intend_view f))
             (combine_first (option_map cv_saved (snd m)) (cv_saved f))
             (combine_first (option_map contacted (snd m)) (contacted f))).

Definition optimistic_merge (base : Table) (changed_rows : list KRow) : Table :=
  map merge_row (merge_left (with_key base) (key_flags changed_rows)).

Definition AUTOSAVE_DEBOUNCE_SEC : Q := 0.35.

(** What one run of the script did about saving. *)
Inductive Outcome : Type :=
| NoCandidates                      (* st.info("No candidates."); st.stop() *)
| NoWrite                           (* auto-save off, or nothing changed *)
| Debounced                         (* changes, inside the debounce window *)
| Committed (n : nat)               (* st.toast: Saved n change(s) *)
| RolledBack (err : option string). (* st.error: Auto-save failed: err *)

(* ---------------------------------------------------------------------- *)
(** * Credentials, upload, write, and the auto-save block                  *)
(* ---------------------------------------------------------------------- *)

Section Engine.

Context {W : Type} {SV : Services W}.
Variable secrets : Secrets.

Local Open Scope py_scope.

(** Python truth value of an optional string. *)
Definition truthy (o : option string) : bool :=
  match o with
  | Some s => negb (s =? "")
  | None => false
  end.

Definition _access_token_from_refresh : M W (option string) :=
  match DROPBOX_APP_KEY secrets, DROPBOX_APP_SECRET secrets,
        DROPBOX_REFRESH_TOKEN secrets with
  | Some key, Some secret, Some refresh =>
      tok <- call EvToken (oauth2_token refresh key secret) ;;
      ret (Some tok)
  | _, _, _ => ret None
  end.

Definition token_missing : string :=
  "Dropbox token missing. Provide either DROPBOX_ACCESS_TOKEN or the trio DROPBOX_APP_KEY, DROPBOX_APP_SECRET, DROPBOX_REFRESH_TOKEN.".

(** @st.cache_resource: a client built once is returned from the cache;
    a build that raises leaves the cache empty. *)
Definition _build_dbx_client : M W Dropbox :=
  s <- get ;;
  match cached_client s with
  | Some c => ret c
  | None =>
      let tok := DROPBOX_ACCESS_TOKEN secrets in
      tok <- (if truthy tok then ret tok else _access_token_from_refresh) ;;
      match tok with
      | Some t =>
          if negb (t =? "") then
            modify (set_cached_client (Some (mkDropbox t))) ;;
            ret (mkDropbox t)
          else raise (PyError token_missing)
      | None => raise (PyError token_missing)
      end
  end.

Definition _refresh_dbx_client : M W Dropbox :=
  tok <- _access_token_from_refresh ;;
  match tok with
  | Some t => if negb (t =? "") then ret (mkDropbox t) else _build_dbx_client
  | None => _build_dbx_client
  end.

(** DBX = None; try: DBX = _build_dbx_client() except Exception: ... *)
Definition boot_dbx : M W unit :=
  modify (set_DBX None) ;;
  try_with (c <- _build_dbx_client ;; modify (set_DBX (Some c)))
           (fun _ => ret tt).

(** The receiver of a method call [o.attr(...)]: AttributeError when [o]
    is None. *)
Definition deref {A : Type} (attr : string) (o : option A) : M W A :=
  match o with
  | Some a => ret a
  | None => raise (PyError ("'NoneType' object has no attribute '" ++ attr ++ "'")%string)
  end.

Definition _ensure_folder_tree (dbx : option Dropbox) (path : option string) : M W unit :=
  p <- deref "rstrip" path ;;
  let parent := PyStr.dirname (PyStr.rstrip_char "/"%char p) in
  if (parent =? "") || (parent =? "/") then ret tt
  else
    try_with (d <- deref "files_create_folder_v2" dbx ;;
              call (EvCreateFolder d parent) (files_create_folder_v2 d parent))
             (fun e => match e with
                       | ApiError _ => ret tt
                       | _ => raise e
                       end).

(** DBX.files_upload(data, path=path, mode=WriteMode("overwrite")).  A
    path that is None has made _ensure_folder_tree raise before; the SDK
    would refuse it here. *)
Definition upload (data : string) (path : option string) : M W unit :=
  s <- get ;;
  d <- deref "files_upload" (DBX s) ;;
  match path with
  | Some p => call (EvUpload d data p) (files_upload d data p)
  | None => raise (PyError "path: expected string, got None")
  end.

Definition attempt (data : string) (path : option string) : M W (bool * option string) :=
  s <- get ;;
  _ensure_folder_tree (DBX s) path ;;
  upload data path ;;
  ret (true, None).

Definition _upload_with_auto_refresh (data : string) (path : option string)
  : M W (bool * option string) :=
  try_with (attempt data path)
    (fun e =>
       match e with
       | AuthError _ =>
           try_with (c <- _refresh_dbx_client ;;
                     modify (set_DBX (Some c)) ;;
                     attempt data path)
                    (fun e2 => ret (false, Some ("AuthError after refresh: " ++ exn_str e2)%string))
       | ApiError _ => ret (false, Some ("ApiError: " ++ exn_str e)%string)
       | PyError _ => ret (false, Some ("Write error: " ++ exn_str e)%string)
       end).

Definition write_state_df (full_df : DataFrame) : M W (bool * option string) :=
  s <- get ;;
  match DBX s with
  | None => ret (false, Some "Dropbox not configured")
  | Some _ =>
      out <- lift (_ensure_schema full_df) ;;
      out <- lift (flags_to_int BOOL_COLS out) ;;
      let data := to_csv out in
      _upload_with_auto_refresh data (STATE_DBX_PATH secrets)
  end.

(** The auto-save block and the snapshot initialisation that ends the
    script.  [edited] is what st.data_editor returned for this run,
    [autosave] the value of the side-bar toggle, [now] what time.time()
    returns when it is read. *)
Definition autosave_block (autosave : bool) (edited : Table) (now : Q) : M W Outcome :=
  let curr_flags := with_key edited in
  s <- get ;;
  let prev_flags := snapshot_all s in
  let changed_rows := _diff_rows prev_flags curr_flags in
  o <- (if autosave && negb (Nat.eqb (length changed_rows) 0) then
          if Qle_bool AUTOSAVE_DEBOUNCE_SEC (now - last_save_ts s) then
            let full := optimistic_merge (df s) changed_rows in
            let backup := df s in
            modify (set_df full) ;;
            r <- write_state_df (df_of_table full) ;;
            modify (set_last_save_ts now) ;;
            if fst r then
              modify (set_snapshot_all (Some curr_flags)) ;;
              ret (Committed (length changed_rows))
            else
              modify (set_df backup) ;;
              ret (RolledBack (snd r))
          else ret Debounced
        else ret NoWrite) ;;
  s' <- get ;;
  match snapshot_all s' with
  | None => modify (set_snapshot_all (Some curr_flags)) ;; ret o
  | Some _ => ret o
  end.

(** One run of the script on an initialised session: boot the client,
    stop when the view is empty, otherwise diff and auto-save. *)
Definition script_run (autosave : bool) (edited : Table) (now : Q) : M W Outcome :=
  boot_dbx ;;
  match edited with
  | [] => ret NoCandidates
  | _ => autosave_block autosave edited now
  end.

End Engine.


(* ---------------------------------------------------------------------- *)
(** * Vocabulary of the properties                                         *)
(* ---------------------------------------------------------------------- *)

(** The text of an identity cell as _key reads it. *)
Definition cell_text (v : cell) : string := astype_str (fillna_empty v).

(** Two cells whose texts differ at most in letter case and in
    surrounding white space. *)
Definition same_modulo_case_ws (a b : cell) : Prop :=
  PyStr.lower (PyStr.strip (cell_text a)) = PyStr.lower (PyStr.strip (cell_text b)).

(** Two cells whose texts differ at most in surrounding white space. *)
Definition same_modulo_ws (a b : cell) : Prop :=
  PyStr.strip (cell_text a) = PyStr.strip (cell_text b).

(** What _ensure_schema is to leave in an identity column and in a flag
    column of a frame [T]. *)
Definition identity_column (c : string) (T : DataFrame) : list cell :=
  match get_col c T with
  | Ok v => v
  | Raise _ => repeat (VStr "") (nrows T)
  end.

Definition flag_column (c : string) (T : DataFrame) : list cell :=
  match get_col c T with
  | Ok v => map (fun x => VBool (coerce_flag x)) v
  | Raise _ => repeat (VBool false) (nrows T)
  end.


(** The key occurs in the snapshot. *)
Definition key_in (k : string) (p : list KRow) : Prop :=
  exists o, In o p /\ _k o = k.

(** Some snapshot row with the key of [c] has other flags than [c]. *)
Definition differs_from (p : list KRow) (c : KRow) : Prop :=
  exists o, In o p /\ _k o = _k c /\ flags (krow o) <> flags (krow c).

(** Every snapshot row with the key of a view row has the flags of that
    view row. *)
Definition agree_on_matching (p curr : list KRow) : Prop :=
  forall c o, In c curr -> In o p -> _k o = _k c ->
              flags (krow c) = flags (krow o).

(** The same two tests, computed. *)
Definition key_inb (k : string) (p : list KRow) : bool :=
  existsb (fun o => _k o =? k) p.

Definition differs_fromb (p : list KRow) (c : KRow) : bool :=
  existsb (fun o => (_k o =? _k c) && negb (flags_eqb (flags (krow c)) (flags (krow o)))) p.

Definition changed_wrt (p : list KRow) (c : KRow) : bool :=
  differs_fromb p c || negb (key_inb (_k c) p).

(** The flags the changed set holds for the key of [r]; those of [r]
    when it holds none. *)
Definition new_flags (changed_rows : list KRow) (r : Row) : Flags :=
  match find (fun c => _k c =? _key r) changed_rows with
  | Some c => flags (krow c)
  | None => flags r
  end.

(** The run called write_state_df. *)
Definition wrote (o : Outcome) : bool :=
  match o with
  | Committed _ | RolledBack _ => true
  | _ => false
  end.

(** The error texts write_state_df can return. *)
Definition descriptive (m : string) : Prop :=
  m = "Dropbox not configured"
  \/ (exists d, m = "AuthError after refresh: " ++ d)%string
  \/ (exists d, m = "ApiError: " ++ d)%string
  \/ (exists d, m = "Write error: " ++ d)%string.

(** The (success, error) pairs of the write contract. *)
Definition result_shape (r : bool * option string) : Prop :=
  r = (true, None) \/ exists m, r = (false, Some m) /\ descriptive m.

(** What a computation may do to the state: [post R m] says every run of
    [m], returning or raising, takes a state to an [R]-related one. *)
Definition post {W A : Type} (R : State W -> State W -> Prop) (m : M W A) : Prop :=
  forall s r s', m s = (r, s') -> R s s'.

(** The session entries are as they were. *)
Definition session_kept {W : Type} (s s' : State W) : Prop :=
  df s' = df s /\ last_save_ts s' = last_save_ts s /\
  snapshot_all s' = snapshot_all s.

(** An upload event carries [data]; other events are unconstrained. *)
Definition carries (data : string) (e : Event) : Prop :=
  match e with
  | EvUpload _ x _ => x = data
  | _ => True
  end.

(** From [s] to [s'] the session entries are kept and the calls made are
    appended to the trace: all satisfy [P], at most [u] are uploads. *)
Definition steps {W : Type} (P : Event -> Prop) (u : nat) (s s' : State W) : Prop :=
  session_kept s s' /\
  exists evs, trace s' = trace s ++ evs /\ Forall P evs /\ (uploads evs <= u)%nat.

(** The changed rows of a run, and whether the debounce interval has
    elapsed when it reads the clock. *)
Definition changes {W : Type} (s : State W) (edited : Table) : list KRow :=
  _diff_rows (snapshot_all s) (with_key edited).

Definition due {W : Type} (s : State W) (now : Q) : bool :=
  Qle_bool AUTOSAVE_DEBOUNCE_SEC (now - last_save_ts s).

(** The last statement of the script: the snapshot is set when the
    session has none. *)
Definition init_snapshot {W : Type} (curr : list KRow) (s : State W) : State W :=
  match snapshot_all s with
  | None => set_snapshot_all (Some curr) s
  | Some _ => s
  end.

(** The bytes write_state_df uploads for a frame. *)
Definition payload {W : Type} {SV : Services W} (full_df : DataFrame) : result string :=
  rbind (_ensure_schema full_df) (fun out =>
  rbind (flags_to_int BOOL_COLS out) (fun out' => Ok (to_csv out'))).

(** One run of the script, by cases.  It never raises. *)
Inductive run_spec {W : Type} {SV : Services W} (secrets : Secrets)
          (autosave : bool) (edited : Table) (now : Q) (s : State W)
  : Outcome -> State W -> Prop :=
| run_stop s0 :
    edited = [] -> steps (carries "") 0 s s0 ->
    run_spec secrets autosave edited now s NoCandidates s0
| run_idle s0 :
    edited <> [] -> autosave = false \/ changes s edited = [] ->
    steps (carries "") 0 s s0 ->
    run_spec secrets autosave edited now s NoWrite (init_snapshot (with_key edited) s0)
| run_debounced s0 :
    edited <> [] -> autosave = true -> changes s edited <> [] ->
    due s now = false -> steps (carries "") 0 s s0 ->
    run_spec secrets autosave edited now s Debounced s0
| run_committed s0 s1 bytes :
    edited <> [] -> autosave = true -> changes s edited <> [] ->
    due s now = true ->
    payload (df_of_table (optimistic_merge (df s) (changes s edited))) = Ok bytes ->
    steps (carries bytes) 0 s s0 ->
    steps (carries bytes) 2 (set_df (optimistic_merge (df s) (changes s edited)) s0) s1 ->
    run_spec secrets autosave edited now s (Committed (length (changes s edited)))
             (set_snapshot_all (Some (with_key edited)) (set_last_save_ts now s1))
| run_rolled_back s0 s1 bytes err :
    edited <> [] -> autosave = true -> changes s edited <> [] ->
    due s now = true ->
    payload (df_of_table (optimistic_merge (df s) (changes s edited))) = Ok bytes ->
    steps (carries bytes) 0 s s0 ->
    steps (carries bytes) 2 (set_df (optimistic_merge (df s) (changes s edited)) s0) s1 ->
    write_state_df secrets
      (df_of_table (optimistic_merge (df s) (changes s edited)))
      (set_df (optimistic_merge (df s) (changes s edited)) s0) = (Ok (false, err), s1) ->
    run_spec secrets autosave edited now s (RolledBack err)
             (set_df (df s) (set_last_save_ts now s1)).

Definition is_bool (v : cell) : Prop :=
  match v with VBool _ => True | _ => False end.

Ltac label_eqb :=
  repeat match goal with
  | |- context [String.eqb ?a ?b] =>
      let r := eval vm_compute in (String.eqb a b) in
      change (String.eqb a b) with r
  end.

(* ---------------------------------------------------------------------- *)
(** * A scripted world, for running the model on concrete inputs           *)
(* ---------------------------------------------------------------------- *)

Module Scripted.

(** The world is the list of the answers still to come, one per call:
    [None] lets the call succeed, [Some e] makes it raise [e]; when the
    list is used up every call succeeds. *)
Definition World := list (option exn).

Definition answer {A : Type} (a : A) (w : World) : result A * World :=
  match w with
  | [] => (Ok a, [])
  | None :: r => (Ok a, r)
  | Some e :: r => (Raise e, r)
  end.

Definition nl : string := String (ascii_of_nat 10) EmptyString.

Fixpoint join (sep : string) (l : list string) : string :=
  match l with
  | [] => ""
  | [x] => x
  | x :: r => (x ++ sep ++ join sep r)%string
  end.

Definition csv_cell (v : cell) : string :=
  match v with
  | VNaN => ""
  | _ => astype_str v
  end.

Definition csv_line (df : DataFrame) (i : nat) : string :=
  (join "," (map (fun c => csv_cell (nth i (snd c) VNaN)) (columns df)) ++ nl)%string.

(** to_csv(index=False) on frames whose text needs no quoting. *)
Definition plain_csv (df : DataFrame) : string :=
  (join "," (map fst (columns df)) ++ nl ++
   String.concat "" (map (csv_line df) (seq 0 (nrows df))))%string.

#[global] Instance services : Services World := {
  oauth2_token := fun _ _ _ => answer "fresh-token";
  files_create_folder_v2 := fun _ _ => answer tt;
  files_upload := fun _ _ _ => answer tt;
  to_csv := plain_csv
}.

Definition static_token : Secrets :=
  mkSecrets (Some "static-token") None None None (Some "/state.csv").

Definition refresh_flow : Secrets :=
  mkSecrets None (Some "key") (Some "secret") (Some "refresh") (Some "/fair/state.csv").

Definition no_flags : Flags := mkFlags false false false false.

Definition jane : Row :=
  mkRow (VStr "Jane") (VStr "Doe") (VStr "https://x/cv.pdf") no_flags.
Definition amir : Row :=
  mkRow (VStr "Amir") (VStr "Khan") (VStr "https://x/amir.pdf") no_flags.

Definition mark_seen (r : Row) : Row :=
  with_flags r (mkFlags true (intend_view (flags r)) (cv_saved (flags r))
                        (contacted (flags r))).
Definition mark_contacted (r : Row) : Row :=
  with_flags r (mkFlags (seen (flags r)) (intend_view (flags r))
                        (cv_saved (flags r)) true).

(** A session just after its first draw: the table is loaded, the
    snapshot holds the whole view, nothing was saved yet. *)
Definition fresh_session (w : World) (t : Table) : State World :=
  mkState w [] None None t 0 (Some (with_key t)).

(** A session that is running with a client built earlier. *)
Definition old_client : Dropbox := mkDropbox "old-token".

Definition running (w : World) (t : Table) (snap : Table) : State World :=
  mkState w [] (Some old_client) (Some old_client) t 0 (Some (with_key snap)).

(** The bytes uploaded for a table, in this world. *)
Definition saved_csv (t : Table) : string :=
  match payload (SV := services) (df_of_table t) with
  | Ok bytes => bytes
  | Raise _ => ""
  end.

End Scripted.

(* ---------------------------------------------------------------------- *)
(** * The read path: _force_dl1 and fetch_state_df                         *)
(* ---------------------------------------------------------------------- *)

Module PyUrl.

(** s.startswith(p) *)
Fixpoint starts_with (p s : string) : bool :=
  match p, s with
  | EmptyString, _ => true
  | String a p', String b s' => Ascii.eqb a b && starts_with p' s'
  | String _ _, EmptyString => false
  end.

(** s[n:] *)
Fixpoint drop (n : nat) (s : string) : string :=
  match n, s with
  | O, _ => s
  | S n', String _ r => drop n' r
  | S _, EmptyString => EmptyString
  end.

(** s.partition(sep) for a non-empty [sep]: the text before the first
    occurrence of [sep] and the text after it; None when [sep] does not
    occur in [s] (where Python returns (s, "", "")), so that the result
    also answers [sep in s]. *)
Fixpoint partition (sep s : string) : option (string * string) :=
  if starts_with sep s then Some (EmptyString, drop (String.length sep) s)
  else
    match s with
    | EmptyString => None
    | String c r =>
        match partition sep r with
        | Some (b, t) => Some (String c b, t)
        | None => None
        end
    end.

(** s.split(x, 1)[1] when [x] occurs in [s]: the text after the first [x]. *)
Fixpoint after_char (x : ascii) (s : string) : string :=
  match s with
  | EmptyString => EmptyString
  | String c r => if Ascii.eqb c x then r else after_char x r
  end.

End PyUrl.

(** _force_dl1.  The argument is the secret STATE_SHARED_CSV_URL, None
    when it is not set. *)
Definition _force_dl1 (url : option string) : option string :=
  match url with
  | None => None
  | Some u =>
      if u =? "" then Some u
      else
        match PyUrl.partition "dl=" u with
        | Some (base, tail) =>
            let rest := if PyStr.contains_char "&"%char tail
                        then PyUrl.after_char "&"%char tail else "" in
            Some (base ++ "dl=1" ++ (if negb (rest =? "") then "&" ++ rest else ""))%string
        | None =>
            Some (u ++ (if PyStr.contains_char "?"%char u then "&" else "?") ++ "dl=1")%string
        end
  end.

(** What the read path calls and does not define: requests.get(url,
    timeout=20) followed by raise_for_status(), giving r.content, and
    pandas.read_csv on those bytes.  Both may raise. *)
Class Reader (W : Type) : Type := {
  requests_get : option string -> W -> result string * W;
  read_csv : string -> result DataFrame
}.

(** The function under @st.cache_data(ttl=10): what a cache miss runs (a
    hit returns what an earlier miss returned). *)
Definition fetch_state_df {W : Type} {RD : Reader W} (STATE_SHARED_CSV_URL : option string)
           (w : W) : result DataFrame * W :=
  let url := _force_dl1 STATE_SHARED_CSV_URL in
  let (r, w') := requests_get url w in
  match r with
  | Ok content => (rbind (read_csv content) _ensure_schema, w')
  | Raise e => (Raise e, w')
  end.

(* ---------------------------------------------------------------------- *)
(** * More vocabulary                                                      *)
(* ---------------------------------------------------------------------- *)

(** The calls made from [s] to [s'] are appended to the trace and all
    satisfy [P]. *)
Definition emits {W : Type} (P : Event -> Prop) (s s' : State W) : Prop :=
  exists evs, trace s' = trace s ++ evs /\ Forall P evs.

(** A call that concerns the write path [path]: an upload to it, or the
    creation of its parent folder, which is neither empty nor the root. *)
Definition targets (path : option string) (e : Event) : Prop :=
  match e with
  | EvToken => True
  | EvCreateFolder _ p =>
      exists q, path = Some q /\
                p = PyStr.dirname (PyStr.rstrip_char "/"%char q) /\
                p <> "" /\ p <> "/"
  | EvUpload _ _ p => path = Some p
  end.

(** A client held in the st.cache_resource slot stays there. *)
Definition cache_kept {W : Type} (c0 : Dropbox) (s s' : State W) : Prop :=
  cached_client s = Some c0 -> cached_client s' = Some c0.

(** No call at all is made. *)
Definition silent {W : Type} (s s' : State W) : Prop :=
  trace s' = trace s /\ world s' = world s.

(** Every column of the frame is as long as its index. *)
Definition rectangular (df : DataFrame) : Prop :=
  Forall (fun c => length (snd c) = nrows df) (columns df).

(** The frame write_state_df serialises for a canonical table: the
    identity columns as they are, the flags as 0 and 1. *)
Definition int_col (f : Flags -> bool) (t : Table) : list cell :=
  map (fun r => VInt (if f (flags r) then 1 else 0)) t.

Definition encoded (t : Table) : DataFrame :=
  mkDF (length t)
    [ (FIRST, map first_name t); (LAST, map last_name t); (FILE, map file_name t);
      (SEEN, int_col seen t); (INT, int_col intend_view t);
      (SAVE, int_col cv_saved t); (CONT, int_col contacted t) ].


(* ====================================================================== *)
(** * Facts about text                                                     *)
(* ====================================================================== *)

Module PyStrFacts.
Import PyStr.

Lemma lstrip_blank_app (a s : string) :
  blank a = true -> lstrip (a ++ s) = lstrip s.
Proof.
  induction a as [|c a IH]; simpl; intros H; [reflexivity|].
  apply andb_true_iff in H as [Hc Ha].
  rewrite Hc. now apply IH.
Qed.

Lemma rstrip_blank (b : string) : blank b = true -> rstrip b = "".
Proof.
  induction b as [|c b IH]; simpl; intros H; [reflexivity|].
  apply andb_true_iff in H as [Hc Hb].
  rewrite (IH Hb), Hc. reflexivity.
Qed.

Lemma rstrip_app_blank (s b : string) :
  blank b = true -> rstrip (s ++ b) = rstrip s.
Proof.
  intros Hb. induction s as [|c s IH]; simpl.
  - now apply rstrip_blank.
  - rewrite IH. reflexivity.
Qed.

Lemma lstrip_app_nonblank (s b : string) :
  lstrip s <> "" -> lstrip (s ++ b) = (lstrip s ++ b)%string.
Proof.
  induction s as [|c s IH]; simpl; intros H; [congruence|].
  destruct (isspace c); [now apply IH | reflexivity].
Qed.

Lemma lstrip_all_blank (s : string) : lstrip s = "" -> blank s = true.
Proof.
  induction s as [|c s IH]; simpl; intros H; [reflexivity|].
  destruct (isspace c); [now apply IH | discriminate].
Qed.

(** White space around a text does not survive strip. *)
Lemma strip_pad (a s b : string) :
  blank a = true -> blank b = true -> strip (a ++ s ++ b) = strip s.
Proof.
  intros Ha Hb. unfold strip. rewrite lstrip_blank_app by exact Ha.
  destruct (string_dec (lstrip s) "") as [E|E].
  - assert (Hs : blank s = true) by now apply lstrip_all_blank.
    rewrite lstrip_blank_app by exact Hs. rewrite E. simpl.
    apply rstrip_blank.
    clear -Hb. induction b as [|c b IH]; simpl in *; [reflexivity|].
    apply andb_true_iff in Hb as [Hc Hb']. rewrite Hc. now apply IH.
  - rewrite lstrip_app_nonblank by exact E. now apply rstrip_app_blank.
Qed.

Lemma lower_char_idem (c : ascii) : lower_char (lower_char c) = lower_char c.
Proof.
  destruct c as [[] [] [] [] [] [] [] []]; reflexivity.
Qed.

Lemma lower_idem (s : string) : lower (lower s) = lower s.
Proof.
  induction s as [|c s IH]; simpl; [reflexivity|].
  now rewrite lower_char_idem, IH.
Qed.

Lemma isspace_lower_char (c : ascii) : isspace (lower_char c) = isspace c.
Proof.
  destruct c as [[] [] [] [] [] [] [] []]; reflexivity.
Qed.

Lemma lstrip_lower (s : string) : lstrip (lower s) = lower (lstrip s).
Proof.
  induction s as [|c s IH]; simpl; [reflexivity|].
  rewrite isspace_lower_char. destruct (isspace c); [exact IH | reflexivity].
Qed.

Lemma rstrip_lower (s : string) : rstrip (lower s) = lower (rstrip s).
Proof.
  induction s as [|c s IH]; simpl; [reflexivity|].
  rewrite IH. destruct (rstrip s); simpl; [|reflexivity].
  rewrite isspace_lower_char. destruct (isspace c); reflexivity.
Qed.

(** Stripping and lower-casing commute. *)
Lemma strip_lower (s : string) : strip (lower s) = lower (strip s).
Proof. unfold strip. now rewrite lstrip_lower, rstrip_lower. Qed.




End PyStrFacts.

(* ====================================================================== *)
(** * Row identity                                                         *)
(* ====================================================================== *)

Lemma key_formula (r : Row) :
  _key r =
  (PyStr.lower (PyStr.strip (cell_text (first_name r))) ++ "||" ++
   PyStr.lower (PyStr.strip (cell_text (last_name r))) ++ "||" ++
   PyStr.strip (cell_text (file_name r)))%string.
Proof. reflexivity. Qed.

(** The flags play no part in the key. *)
Lemma key_with_flags (r : Row) (f : Flags) : _key (with_flags r f) = _key r.
Proof. reflexivity. Qed.

(** The separator can occur inside a field: rows with different names
    can share a key. *)
Lemma key_separator_collision :
  let r1 := mkRow (VStr "a||b") (VStr "c") (VStr "u") (mkFlags false false false false) in
  let r2 := mkRow (VStr "a") (VStr "b||c") (VStr "u") (mkFlags false false false false) in
  identity r1 <> identity r2 /\ _key r1 = _key r2.
Proof. split; [discriminate | reflexivity]. Qed.

(** Padding a name with white space and changing the case of its letters
    are two ways to stay in the relation the key ignores. *)
Lemma same_modulo_case_ws_pad (a t b : string) :
  PyStr.blank a = true -> PyStr.blank b = true ->
  same_modulo_case_ws (VStr (a ++ t ++ b)) (VStr t).
Proof.
  intros Ha Hb. unfold same_modulo_case_ws, cell_text. simpl.
  now rewrite PyStrFacts.strip_pad.
Qed.

Lemma same_modulo_case_ws_lower (t : string) :
  same_modulo_case_ws (VStr (PyStr.lower t)) (VStr t).
Proof.
  unfold same_modulo_case_ws, cell_text. simpl.
  now rewrite PyStrFacts.strip_lower, PyStrFacts.lower_idem.
Qed.

(** C6, as stated, fails: two records whose three identity fields differ
    only in letter case (here in the file URL alone) get different keys,
    because the URL part of the key is stripped but not lower-cased. *)
Lemma key_file_case_counterexample :
  let r1 := mkRow (VStr "Jane") (VStr "Doe") (VStr "https://x/CV.pdf")
                  (mkFlags false false false false) in
  let r2 := mkRow (VStr "Jane") (VStr "Doe") (VStr "https://x/cv.pdf")
                  (mkFlags false false false false) in
  same_modulo_case_ws (first_name r1) (first_name r2) /\
  same_modulo_case_ws (last_name r1) (last_name r2) /\
  same_modulo_case_ws (file_name r1) (file_name r2) /\
  _key r1 <> _key r2.
Proof.
  cbv zeta. repeat split; try reflexivity. vm_compute. discriminate.
Qed.

(** C6, amended: the key is the lower-cased stripped first name, the
    lower-cased stripped last name and the stripped file URL (its case
    kept), joined by "||"; so two records whose names differ only in letter
    case or surrounding white space and whose URLs differ only in
    surrounding white space have equal keys, whatever their flags. *)
Theorem key_normalises_identity (r1 r2 : Row) :
  same_modulo_case_ws (first_name r1) (first_name r2) ->
  same_modulo_case_ws (last_name r1) (last_name r2) ->
  same_modulo_ws (file_name r1) (file_name r2) ->
  _key r1 = _key r2 /\
  _key r1 =
    (PyStr.lower (PyStr.strip (cell_text (first_name r1))) ++ "||" ++
     PyStr.lower (PyStr.strip (cell_text (last_name r1))) ++ "||" ++
     PyStr.strip (cell_text (file_name r1)))%string.
Proof.
  unfold same_modulo_case_ws, same_modulo_ws. intros H1 H2 H3.
  split; [|apply key_formula].
  rewrite !key_formula, H1, H2, H3. reflexivity.
Qed.

Lemma key_normalises_identity_witness :
  let r1 := mkRow (VStr "  Jane ") (VStr "DOE") (VStr " https://x/cv.pdf ")
                  (mkFlags true false true false) in
  let r2 := mkRow (VStr "jane") (VStr "Doe  ") (VStr "https://x/cv.pdf")
                  (mkFlags false false false true) in
  _key r1 = _key r2 /\ _key r1 = "jane||doe||https://x/cv.pdf".
Proof.
  cbv zeta.
  destruct (@key_normalises_identity
              (mkRow (VStr "  Jane ") (VStr "DOE") (VStr " https://x/cv.pdf ")
                     (mkFlags true false true false))
              (mkRow (VStr "jane") (VStr "Doe  ") (VStr "https://x/cv.pdf")
                     (mkFlags false false false true)))
    as [E _]; try reflexivity.
  split; [exact E | reflexivity].
Defined.

(* ====================================================================== *)
(** * The diff engine                                                      *)
(* ====================================================================== *)

Lemma flags_eqb_eq (a b : Flags) : flags_eqb a b = true <-> a = b.
Proof.
  destruct a as [a1 a2 a3 a4], b as [b1 b2 b3 b4]. unfold flags_eqb. simpl.
  rewrite !andb_true_iff, !Bool.eqb_true_iff. split.
  - intros [[[-> ->] ->] ->]. reflexivity.
  - intros E. injection E as -> -> -> ->. auto.
Qed.

Lemma flags_eqb_neq (a b : Flags) : flags_eqb a b = false <-> a <> b.
Proof.
  rewrite <- flags_eqb_eq. destruct (flags_eqb a b); split; congruence.
Qed.

Lemma changed_none (c : KRow) : changed (c, None) = true.
Proof. reflexivity. Qed.

Lemma changed_some (c : KRow) (f : Flags) :
  changed (c, Some f) = negb (flags_eqb (flags (krow c)) f).
Proof.
  unfold changed, flags_eqb. simpl.
  destruct (seen (flags (krow c))), (seen f), (intend_view (flags (krow c))),
    (intend_view f), (cv_saved (flags (krow c))), (cv_saved f),
    (contacted (flags (krow c))), (contacted f); reflexivity.
Qed.

Lemma In_matches (k : string) (right : list (string * Flags)) (o : string * Flags) :
  In o (matches k right) <-> In o right /\ fst o = k.
Proof.
  unfold matches. rewrite filter_In.
  destruct (String.eqb_spec (fst o) k); intuition congruence.
Qed.

Lemma In_key_flags (p : list KRow) (k : string) (f : Flags) :
  In (k, f) (key_flags p) <-> exists o, In o p /\ _k o = k /\ flags (krow o) = f.
Proof.
  unfold key_flags. rewrite in_map_iff. split.
  - intros [o [E Ho]]. injection E as <- <-. eauto.
  - intros [o [Ho [<- <-]]]. eauto.
Qed.

Lemma matches_nil_iff (k : string) (p : list KRow) :
  matches k (key_flags p) = [] <-> ~ key_in k p.
Proof.
  split.
  - intros E [o [Ho Hk]].
    assert (H : In (k, flags (krow o)) (matches k (key_flags p))).
    { apply In_matches. split; [|reflexivity]. apply In_key_flags. eauto. }
    rewrite E in H. exact H.
  - intros N. destruct (matches k (key_flags p)) as [|[k' f] r] eqn:E; [reflexivity|].
    exfalso. apply N.
    assert (H : In (k', f) (matches k (key_flags p))) by (rewrite E; now left).
    apply In_matches in H as [H Hk]. simpl in Hk. subst k'.
    apply In_key_flags in H as [o [Ho [Hk _]]]. exists o. auto.
Qed.

Lemma map_filter_flat_map {A B C : Type} (f : B -> C) (g : B -> bool)
      (h : A -> list B) (l : list A) :
  map f (filter g (flat_map h l)) = flat_map (fun a => map f (filter g (h a))) l.
Proof.
  induction l as [|a l IH]; [reflexivity|].
  cbn [flat_map]. rewrite filter_app, map_app, IH. reflexivity.
Qed.

Lemma flat_map_as_filter {A : Type} (f : A -> list A) (g : A -> bool) (l : list A) :
  (forall a, f a = if g a then [a] else []) -> flat_map f l = filter g l.
Proof.
  intros H. induction l as [|a l IH]; [reflexivity|].
  cbn [flat_map filter]. rewrite IH, H. destruct (g a); reflexivity.
Qed.

(** The rows one view row contributes to the diff. *)
Lemma diff_as_flat_map (right : list (string * Flags)) (curr : list KRow) :
  map fst (filter changed (merge_left curr right)) =
  flat_map (fun c =>
    map fst (filter changed
      match matches (_k c) right with
      | [] => [(c, None)]
      | ms => map (fun o => (c, Some (snd o))) ms
      end)) curr.
Proof.
  unfold merge_left. apply map_filter_flat_map.
Qed.

Lemma In_emitted (p : list KRow) (c c' : KRow) :
  In c' (map fst (filter changed
      match matches (_k c) (key_flags p) with
      | [] => [(c, None)]
      | ms => map (fun o => (c, Some (snd o))) ms
      end))
  <-> c' = c /\ (differs_from p c \/ ~ key_in (_k c) p).
Proof.
  destruct (matches (_k c) (key_flags p)) as [|m ms] eqn:E.
  - apply matches_nil_iff in E. simpl. split.
    + intros [<-|[]]. auto.
    + intros [-> _]. now left.
  - assert (Hin : key_in (_k c) p).
    { assert (H : In m (matches (_k c) (key_flags p))) by (rewrite E; now left).
      destruct m as [k f]. apply In_matches in H as [H Hk]. simpl in Hk. subst k.
      apply In_key_flags in H as [o [Ho [Hk _]]]. exists o. auto. }
    rewrite <- E. clear E m ms.
    rewrite in_map_iff. split.
    + intros [[c0 f0] [<- H]]. simpl. apply filter_In in H as [H Hc].
      apply in_map_iff in H as [[k f] [Eq H]]. injection Eq as <- <-. simpl in *.
      split; [reflexivity|]. left.
      apply In_matches in H as [H Hk]. simpl in Hk. subst k.
      apply In_key_flags in H as [o [Ho [Hk Hf]]].
      exists o. repeat split; auto.
      rewrite changed_some in Hc. apply negb_true_iff, flags_eqb_neq in Hc.
      congruence.
    + intros [-> [[o [Ho [Hk Hf]]]|N]]; [|contradiction].
      exists (c, Some (flags (krow o))). split; [reflexivity|].
      apply filter_In. split.
      * apply in_map_iff. exists (_k c, flags (krow o)). split; [reflexivity|].
        apply In_matches. split; [|reflexivity]. apply In_key_flags. eauto.
      * rewrite changed_some. apply negb_true_iff, flags_eqb_neq. congruence.
Qed.

Lemma In_diff_rows (p : list KRow) (curr : list KRow) (c : KRow) :
  p <> [] ->
  (In c (_diff_rows (Some p) curr)
   <-> In c curr /\ (differs_from p c \/ ~ key_in (_k c) p)).
Proof.
  intros Hp. unfold _diff_rows. destruct p as [|o p]; [congruence|].
  rewrite diff_as_flat_map, in_flat_map. split.
  - intros [c0 [Hc0 H]]. apply In_emitted in H as [-> H]. auto.
  - intros [Hc H]. exists c. split; [exact Hc|]. apply In_emitted. auto.
Qed.

Lemma key_inb_spec (k : string) (p : list KRow) : key_inb k p = true <-> key_in k p.
Proof.
  unfold key_inb, key_in. rewrite existsb_exists.
  split; intros [o [Ho H]]; exists o; split; auto.
  - now apply String.eqb_eq.
  - now apply String.eqb_eq.
Qed.

Lemma differs_fromb_spec (p : list KRow) (c : KRow) :
  differs_fromb p c = true <-> differs_from p c.
Proof.
  unfold differs_fromb, differs_from. rewrite existsb_exists.
  split; intros [o [Ho H]]; exists o; split; auto.
  - apply andb_true_iff in H as [Hk Hf]. apply String.eqb_eq in Hk.
    apply negb_true_iff, flags_eqb_neq in Hf. split; congruence.
  - destruct H as [Hk Hf]. apply andb_true_iff. split.
    + now apply String.eqb_eq.
    + apply negb_true_iff, flags_eqb_neq. congruence.
Qed.

Lemma changed_wrt_spec (p : list KRow) (c : KRow) :
  changed_wrt p c = true <-> differs_from p c \/ ~ key_in (_k c) p.
Proof.
  unfold changed_wrt. rewrite orb_true_iff, differs_fromb_spec, negb_true_iff.
  rewrite <- key_inb_spec. destruct (key_inb (_k c) p); intuition congruence.
Qed.

Lemma matches_unique (k : string) (right : list (string * Flags)) :
  NoDup (map fst right) -> (length (matches k right) <= 1)%nat.
Proof.
  induction right as [|[k0 f0] right IH]; simpl; intros H; [lia|].
  inversion H as [|? ? Hnot Hnd]; subst.
  destruct (String.eqb_spec k0 k) as [->|Hne]; [|now apply IH].
  simpl. assert (E : matches k right = []).
  { destruct (matches k right) as [|m ms] eqn:E; [reflexivity|]. exfalso.
    assert (Hm : In m (matches k right)) by (rewrite E; now left).
    apply In_matches in Hm as [Hm Hk]. apply Hnot.
    rewrite <- Hk. now apply in_map. }
  rewrite E. simpl. lia.
Qed.

Lemma key_flags_keys (p : list KRow) : map fst (key_flags p) = map _k p.
Proof. unfold key_flags. rewrite map_map. reflexivity. Qed.

(** With one snapshot row per key, a view row is emitted once or not at
    all. *)
Lemma emitted_unique (p : list KRow) (c : KRow) :
  NoDup (map _k p) ->
  map fst (filter changed
      match matches (_k c) (key_flags p) with
      | [] => [(c, None)]
      | ms => map (fun o => (c, Some (snd o))) ms
      end)
  = if changed_wrt p c then [c] else [].
Proof.
  intros Hnd.
  pose proof (In_emitted p c) as Hin.
  pose proof (@matches_unique (_k c) (key_flags p)) as Hlen.
  rewrite key_flags_keys in Hlen. specialize (Hlen Hnd).
  destruct (matches (_k c) (key_flags p)) as [|m [|m' ms]] eqn:E;
    [| |simpl in Hlen; lia].
  - simpl in *. destruct (changed_wrt p c) eqn:Ec; [reflexivity|].
    exfalso. assert (H : changed_wrt p c = true).
    { apply changed_wrt_spec. apply (Hin c). now left. }
    congruence.
  - simpl in *. destruct (changed (c, Some (snd m))) eqn:Ech; simpl in *.
    + assert (H : changed_wrt p c = true).
      { apply changed_wrt_spec. apply (Hin c). now left. }
      now rewrite H.
    + destruct (changed_wrt p c) eqn:Ec; [|reflexivity].
      apply changed_wrt_spec in Ec.
      destruct (proj2 (Hin c) (conj eq_refl Ec)).
Qed.

(** C4: a missing or empty previous snapshot gives no changed rows;
    otherwise the diff holds exactly the rows of the current view that
    either have a snapshot row with their key and other flags, or have a
    key the snapshot lacks, and, when the snapshot has one row per key,
    it holds them once each, in the order of the view. *)
Theorem diff_rows_spec (p curr : list KRow) :
  _diff_rows None curr = [] /\
  _diff_rows (Some []) curr = [] /\
  (p <> [] ->
     (forall c, In c (_diff_rows (Some p) curr)
                <-> In c curr /\ (differs_from p c \/ ~ key_in (_k c) p)) /\
     (NoDup (map _k p) ->
        _diff_rows (Some p) curr = filter (changed_wrt p) curr)).
Proof.
  split; [reflexivity|]. split; [reflexivity|].
  intros Hp. split.
  - intros c. now apply In_diff_rows.
  - intros Hnd. unfold _diff_rows. destruct p as [|o p]; [congruence|].
    rewrite diff_as_flat_map. apply flat_map_as_filter.
    intros c. now apply emitted_unique.
Qed.

Lemma diff_rows_spec_witness :
  _diff_rows (Some (with_key [Scripted.jane; Scripted.amir]))
             (with_key [Scripted.mark_seen Scripted.jane; Scripted.amir])
  = with_key [Scripted.mark_seen Scripted.jane].
Proof.
  destruct (diff_rows_spec (with_key [Scripted.jane; Scripted.amir])
              (with_key [Scripted.mark_seen Scripted.jane; Scripted.amir]))
    as [_ [_ H]].
  destruct H as [_ H]; [discriminate|].
  rewrite H; [reflexivity|].
  vm_compute. repeat constructor; simpl; intuition discriminate.
Defined.

(** C5, as stated, fails: the snapshot holds Jane only and the view holds
    Amir only, so no key is in both and the flags agree on all matching
    keys, yet the diff is not empty: a view row whose key the snapshot
    lacks counts as changed. *)
Lemma diff_empty_iff_counterexample :
  agree_on_matching (with_key [Scripted.jane]) (with_key [Scripted.amir]) /\
  _diff_rows (Some (with_key [Scripted.jane])) (with_key [Scripted.amir]) <> [].
Proof.
  split.
  - intros c o Hc Ho Hk. simpl in Hc, Ho.
    destruct Hc as [<-|[]], Ho as [<-|[]]. vm_compute in Hk. discriminate.
  - vm_compute. discriminate.
Qed.

Lemma nil_iff_no_member {A : Type} (l : list A) : l = [] <-> forall a, ~ In a l.
Proof.
  split.
  - intros -> a [].
  - destruct l as [|a l]; [reflexivity|]. intros H. exfalso. apply (H a). now left.
Qed.

(** C5, amended: the diff is empty if and only if the previous snapshot is
    missing or empty, or every row of the view has its key in the snapshot
    and the flags of every snapshot row with that key. *)
Theorem diff_rows_empty_iff (prev : option (list KRow)) (curr : list KRow) :
  _diff_rows prev curr = [] <->
  prev = None \/ prev = Some [] \/
  exists p, prev = Some p /\
    forall c, In c curr ->
      key_in (_k c) p /\
      forall o, In o p -> _k o = _k c -> flags (krow o) = flags (krow c).
Proof.
  destruct prev as [p|]; [|split; auto].
  destruct p as [|o0 p]; [split; auto|].
  set (q := o0 :: p). assert (Hq : q <> []) by discriminate.
  rewrite nil_iff_no_member. split.
  - intros H. right. right. exists q. split; [reflexivity|].
    intros c Hc.
    assert (N : ~ (differs_from q c \/ ~ key_in (_k c) q)).
    { intros D. apply (H c). apply In_diff_rows; auto. }
    split.
    + destruct (key_inb (_k c) q) eqn:E; [now apply key_inb_spec|].
      exfalso. apply N. right. rewrite <- key_inb_spec. congruence.
    + intros o Ho Hk.
      destruct (flags_eqb (flags (krow o)) (flags (krow c))) eqn:E;
        [now apply flags_eqb_eq|].
      exfalso. apply N. left. exists o. repeat split; auto.
      now apply flags_eqb_neq.
  - intros [E|[E|[p' [E H]]]]; try discriminate.
    injection E as <-. intros c Hc.
    apply In_diff_rows in Hc as [Hc D]; auto.
    destruct (H c Hc) as [Hin Hf].
    destruct D as [[o [Ho [Hk Hne]]]|N]; [|contradiction].
    apply Hne. now apply Hf.
Qed.

(* ====================================================================== *)
(** * The optimistic merge                                                 *)
(* ====================================================================== *)

Lemma find_head_filter {A : Type} (g : A -> bool) (l : list A) :
  find g l = hd_error (filter g l).
Proof.
  induction l as [|a l IH]; simpl; [reflexivity|].
  destruct (g a); [reflexivity | exact IH].
Qed.

Lemma matches_key_flags (k : string) (ch : list KRow) :
  matches k (key_flags ch) = key_flags (filter (fun c => _k c =? k) ch).
Proof.
  unfold matches, key_flags.
  induction ch as [|c ch IH]; simpl; [reflexivity|].
  destruct (_k c =? k); simpl; now rewrite IH.
Qed.

Lemma merge_row_none (kr : KRow) : merge_row (kr, None) = krow kr.
Proof.
  unfold merge_row, with_flags. simpl.
  destruct (krow kr) as [a b c [f1 f2 f3 f4]]. reflexivity.
Qed.

Lemma merge_row_some (kr : KRow) (f : Flags) :
  merge_row (kr, Some f) = with_flags (krow kr) f.
Proof.
  unfold merge_row. simpl. destruct f. reflexivity.
Qed.

Lemma with_flags_same (r : Row) : with_flags r (flags r) = r.
Proof. destruct r. reflexivity. Qed.

Lemma map_flat_map {A B C : Type} (f : B -> C) (h : A -> list B) (l : list A) :
  map f (flat_map h l) = flat_map (fun a => map f (h a)) l.
Proof.
  induction l as [|a l IH]; [reflexivity|].
  cbn [flat_map]. now rewrite map_app, IH.
Qed.

Lemma flat_map_map {A B C : Type} (g : A -> B) (h : B -> list C) (l : list A) :
  flat_map h (map g l) = flat_map (fun a => h (g a)) l.
Proof.
  induction l as [|a l IH]; [reflexivity|].
  cbn [map flat_map]. now rewrite IH.
Qed.

Lemma flat_map_singleton {A B : Type} (h : A -> list B) (f : A -> B) (l : list A) :
  (forall a, h a = [f a]) -> flat_map h l = map f l.
Proof.
  intros H. induction l as [|a l IH]; [reflexivity|].
  cbn [map flat_map]. now rewrite IH, H.
Qed.

(** What one row of the table becomes in the merge, with one changed row
    per key. *)
Lemma merged_row_unique (ch : list KRow) (r : Row) :
  NoDup (map _k ch) ->
  map merge_row
    match matches (_key r) (key_flags ch) with
    | [] => [(mkKRow r (_key r), None)]
    | ms => map (fun o => (mkKRow r (_key r), Some (snd o))) ms
    end
  = [with_flags r (new_flags ch r)].
Proof.
  intros Hnd.
  pose proof (@matches_unique (_key r) (key_flags ch)) as Hlen.
  rewrite key_flags_keys in Hlen. specialize (Hlen Hnd).
  unfold new_flags. rewrite find_head_filter.
  rewrite matches_key_flags in *.
  destruct (filter (fun c => _k c =? _key r) ch) as [|c [|c' l]];
    cbn [key_flags map length hd_error app snd] in *.
  - rewrite merge_row_none. cbn [krow]. now rewrite with_flags_same.
  - rewrite merge_row_some. reflexivity.
  - lia.
Qed.

(** With one changed row per key the merge is a row-by-row update. *)
Lemma optimistic_merge_as_map (base : Table) (ch : list KRow) :
  NoDup (map _k ch) ->
  optimistic_merge base ch = map (fun r => with_flags r (new_flags ch r)) base.
Proof.
  intros Hnd. unfold optimistic_merge, merge_left, with_key.
  rewrite map_flat_map, flat_map_map.
  apply flat_map_singleton. intros r. cbn [_k].
  now apply merged_row_unique.
Qed.

Lemma new_flags_absent (ch : list KRow) (r : Row) :
  (forall c, In c ch -> _k c <> _key r) -> new_flags ch r = flags r.
Proof.
  intros H. unfold new_flags.
  destruct (find (fun c => _k c =? _key r) ch) as [c|] eqn:E; [|reflexivity].
  apply find_some in E as [Hc Hk]. apply String.eqb_eq in Hk.
  now destruct (H c Hc).
Qed.

Lemma new_flags_present (ch : list KRow) (r : Row) (c : KRow) :
  NoDup (map _k ch) -> In c ch -> _k c = _key r ->
  new_flags ch r = flags (krow c).
Proof.
  intros Hnd Hc Hk. unfold new_flags.
  induction ch as [|c0 ch IH]; [destruct Hc|].
  inversion Hnd as [|? ? Hnot Hnd']; subst. cbn [find].
  destruct (String.eqb_spec (_k c0) (_key r)) as [E0|N0].
  - destruct Hc as [->|Hc]; [reflexivity|].
    exfalso. apply Hnot. rewrite E0, <- Hk. now apply in_map.
  - destruct Hc as [->|Hc]; [contradiction|]. now apply IH.
Qed.

(** C10: when every key occurs at most once in the changed rows and at
    most once in the authoritative table, the optimistic merge keeps the
    number of rows, their order and their identity columns; a row whose
    key is in the changed set takes the four flags of the changed row with
    that key, and every other row keeps its flags. *)
Theorem optimistic_merge_frame (base : Table) (ch : list KRow) :
  NoDup (map _k ch) ->
  NoDup (map _key base) ->
  length (optimistic_merge base ch) = length base /\
  map identity (optimistic_merge base ch) = map identity base /\
  forall i r, nth_error base i = Some r ->
    exists r', nth_error (optimistic_merge base ch) i = Some r' /\
      identity r' = identity r /\
      (forall c, In c ch -> _k c = _key r -> flags r' = flags (krow c)) /\
      ((forall c, In c ch -> _k c <> _key r) -> flags r' = flags r).
Proof.
  intros Hch _. rewrite optimistic_merge_as_map by exact Hch.
  split; [now rewrite length_map|].
  split; [rewrite map_map; reflexivity|].
  intros i r Hi. exists (with_flags r (new_flags ch r)).
  split; [now rewrite nth_error_map, Hi|].
  split; [reflexivity|]. split.
  - intros c Hc Hk. cbn. now apply new_flags_present.
  - intros H. cbn. now apply new_flags_absent.
Qed.

Lemma optimistic_merge_frame_witness :
  optimistic_merge [Scripted.jane; Scripted.amir]
                   (with_key [Scripted.mark_seen Scripted.jane])
  = [Scripted.mark_seen Scripted.jane; Scripted.amir] /\
  length (optimistic_merge [Scripted.jane; Scripted.amir]
                           (with_key [Scripted.mark_seen Scripted.jane])) = 2%nat.
Proof.
  split; [reflexivity|].
  refine (proj1 (@optimistic_merge_frame [Scripted.jane; Scripted.amir]
                   (with_key [Scripted.mark_seen Scripted.jane]) _ _)).
  - vm_compute. repeat constructor; simpl; intuition discriminate.
  - vm_compute. repeat constructor; simpl; intuition discriminate.
Defined.

(* ====================================================================== *)
(** * The schema normaliser                                                *)
(* ====================================================================== *)

Section Frames.

Implicit Types (df T : DataFrame) (c : string) (v : list cell).

Lemma has_col_get_col c df :
  has_col c df = match get_col c df with Ok _ => true | Raise _ => false end.
Proof.
  unfold has_col, get_col. induction (columns df) as [|p cs IH]; simpl; [reflexivity|].
  destruct (fst p =? c); [reflexivity | exact IH].
Qed.

Lemma find_replace_col c c' v (cs : list (string * list cell)) :
  existsb (fun p => fst p =? c') cs = true ->
  find (fun p => fst p =? c) (replace_col c' v cs) =
  if c' =? c then Some (c', v) else find (fun p => fst p =? c) cs.
Proof.
  induction cs as [|p cs IH]; simpl; [discriminate|].
  destruct (String.eqb_spec (fst p) c') as [E|N]; simpl.
  - intros _. destruct (String.eqb_spec c' c) as [E'|N']; [reflexivity|].
    rewrite E. destruct (String.eqb_spec c' c); [contradiction | reflexivity].
  - intros H. destruct (String.eqb_spec (fst p) c) as [E|N'].
    + destruct (String.eqb_spec c' c); [congruence | reflexivity].
    + now apply IH.
Qed.

Lemma find_app_new c c' v (cs : list (string * list cell)) :
  existsb (fun p => fst p =? c') cs = false ->
  find (fun p => fst p =? c) (cs ++ [(c', v)]) =
  if c' =? c then Some (c', v) else find (fun p => fst p =? c) cs.
Proof.
  induction cs as [|p cs IH]; simpl; [reflexivity|].
  destruct (String.eqb_spec (fst p) c') as [E|N]; simpl; [discriminate|].
  intros H. destruct (String.eqb_spec (fst p) c) as [E|N'].
  - destruct (String.eqb_spec c' c); [congruence | reflexivity].
  - now apply IH.
Qed.

Lemma get_col_set_col c c' v df :
  get_col c (set_col c' v df) = if c' =? c then Ok v else get_col c df.
Proof.
  unfold set_col, get_col, has_col.
  destruct (existsb (fun p => fst p =? c') (columns df)) eqn:E; simpl.
  - rewrite find_replace_col by exact E. destruct (c' =? c); reflexivity.
  - rewrite find_app_new by exact E. destruct (c' =? c); reflexivity.
Qed.

Lemma nrows_set_col c v df : nrows (set_col c v df) = nrows df.
Proof. unfold set_col. destruct (has_col c df); reflexivity. Qed.

Lemma nrows_ensure_identity df c : nrows (ensure_identity df c) = nrows df.
Proof.
  unfold ensure_identity, set_scalar. destruct (has_col c df); [reflexivity|].
  apply nrows_set_col.
Qed.

Lemma get_col_ensure_identity c c' df :
  get_col c (ensure_identity df c') =
  if c' =? c then Ok (identity_column c' df) else get_col c df.
Proof.
  unfold ensure_identity, set_scalar, identity_column.
  rewrite has_col_get_col.
  destruct (get_col c' df) as [v|e] eqn:E.
  - destruct (String.eqb_spec c' c) as [<-|N]; [exact E | reflexivity].
  - apply get_col_set_col.
Qed.

Lemma ensure_flag_ok df c :
  ensure_flag df c = Ok (set_col c (flag_column c df) df).
Proof.
  unfold ensure_flag, set_scalar, flag_column. rewrite has_col_get_col.
  destruct (get_col c df); reflexivity.
Qed.

Lemma select_cols_ok (cs : list string) df (f : string -> list cell) :
  (forall c, In c cs -> get_col c df = Ok (f c)) ->
  select_cols cs df = Ok (map (fun c => (c, f c)) cs).
Proof.
  induction cs as [|c cs IH]; intros H; simpl; [reflexivity|].
  rewrite (H c) by now left. simpl.
  rewrite IH by (intros; apply H; now right). reflexivity.
Qed.

End Frames.

(** The frame _ensure_schema returns. *)
Lemma ensure_schema_normal_form (T : DataFrame) :
  _ensure_schema T =
  Ok (mkDF (nrows T)
        [ (FIRST, identity_column FIRST T); (LAST, identity_column LAST T);
          (FILE, identity_column FILE T);
          (SEEN, flag_column SEEN T); (INT, flag_column INT T);
          (SAVE, flag_column SAVE T); (CONT, flag_column CONT T) ]).
Proof.
  unfold _ensure_schema, BOOL_COLS. cbn [fold_left ensure_flags].
  rewrite !ensure_flag_ok. cbn [rbind].
  rewrite !ensure_flag_ok. cbn [rbind].
  rewrite !ensure_flag_ok. cbn [rbind].
  rewrite !ensure_flag_ok. cbn [rbind].
  unfold select.
  set (d3 := ensure_identity (ensure_identity (ensure_identity T FIRST) LAST) FILE).
  assert (N3 : nrows d3 = nrows T).
  { unfold d3. now rewrite !nrows_ensure_identity. }
  assert (G : forall c, get_col c d3 =
            if FILE =? c then Ok (identity_column FILE T)
            else if LAST =? c then Ok (identity_column LAST T)
            else if FIRST =? c then Ok (identity_column FIRST T)
            else get_col c T).
  { intros c. unfold d3. rewrite !get_col_ensure_identity.
    unfold identity_column at 1 2.
    rewrite !get_col_ensure_identity, !nrows_ensure_identity. label_eqb.
    reflexivity. }
  set (f := fun c : string =>
              if c =? FIRST then identity_column FIRST T
              else if c =? LAST then identity_column LAST T
              else if c =? FILE then identity_column FILE T
              else flag_column c T).
  rewrite (@select_cols_ok _ _ f).
  - cbn [rbind map]. rewrite !nrows_set_col, N3. unfold f. label_eqb. reflexivity.
  - intros c Hc. rewrite !get_col_set_col.
    unfold flag_column. rewrite !get_col_set_col, !nrows_set_col, !G, N3.
    unfold f. simpl in Hc.
    destruct Hc as [<-|[<-|[<-|[<-|[<-|[<-|[<-|[]]]]]]]]; label_eqb; reflexivity.
Qed.

Lemma get_col_cons (c c' : string) (v : list cell) (n : nat)
      (cs : list (string * list cell)) :
  get_col c (mkDF n ((c', v) :: cs)) =
  if c' =? c then Ok v else get_col c (mkDF n cs).
Proof.
  unfold get_col. simpl. destruct (c' =? c); reflexivity.
Qed.

Lemma coerce_flag_bool (b : bool) : coerce_flag (VBool b) = b.
Proof. destruct b; reflexivity. Qed.


Lemma flag_column_coerced (c : string) (T : DataFrame) :
  map (fun x => VBool (coerce_flag x)) (flag_column c T) = flag_column c T.
Proof.
  unfold flag_column. destruct (get_col c T) as [v|e].
  - rewrite map_map. apply map_ext. intros x. now rewrite coerce_flag_bool.
  - rewrite map_repeat. now rewrite coerce_flag_bool.
Qed.









(** The vocabulary on the spellings the contract names. *)
Example coerce_flag_vocabulary :
  map coerce_flag
    [VStr "true"; VStr " YES "; VStr "y"; VStr "1"; VInt 1; VBool true;
     VStr "false"; VStr "No"; VStr "n"; VStr "0"; VInt 0; VBool false;
     VNaN; VStr ""; VStr "maybe"; VOther "1.0"; VInt 2]
  = [true; true; true; true; true; true;
     false; false; false; false; false; false;
     false; false; false; false; false].
Proof. reflexivity. Qed.

(** C8: normalising a normalised table changes nothing:
    _ensure_schema(_ensure_schema(T)) is _ensure_schema(T). *)
Theorem ensure_schema_idempotent (T : DataFrame) :
  rbind (_ensure_schema T) _ensure_schema = _ensure_schema T.
Proof.
  rewrite (ensure_schema_normal_form T). cbn [rbind].
  rewrite ensure_schema_normal_form. cbn [nrows].
  pose proof (flag_column_coerced SEEN T) as E1.
  pose proof (flag_column_coerced INT T) as E2.
  pose proof (flag_column_coerced SAVE T) as E3.
  pose proof (flag_column_coerced CONT T) as E4.
  set (i1 := identity_column FIRST T) in *. set (i2 := identity_column LAST T) in *.
  set (i3 := identity_column FILE T) in *.
  set (f1 := flag_column SEEN T) in *. set (f2 := flag_column INT T) in *.
  set (f3 := flag_column SAVE T) in *. set (f4 := flag_column CONT T) in *.
  unfold identity_column, flag_column.
  rewrite !get_col_cons. label_eqb. cbv iota.
  rewrite E1, E2, E3, E4. reflexivity.
Qed.

(* ====================================================================== *)
(** * The bytes of a write                                                 *)
(* ====================================================================== *)

Lemma flag_column_bools (c : string) (T : DataFrame) : Forall is_bool (flag_column c T).
Proof.
  unfold flag_column. destruct (get_col c T) as [v|e].
  - apply Forall_forall. intros x Hx. apply in_map_iff in Hx as [y [<- _]]. exact I.
  - apply Forall_forall. intros x Hx. apply repeat_spec in Hx. subst. exact I.
Qed.

Lemma astype_int_col_bools (l : list cell) :
  Forall is_bool l -> exists l', astype_int_col l = Ok l'.
Proof.
  induction 1 as [|v l Hv _ [l' IH]]; simpl; [eauto|].
  destruct v; try contradiction. simpl. rewrite IH. simpl. eauto.
Qed.

(** After _ensure_schema the conversion of the flag columns to 0/1 goes
    through: write_state_df gets its bytes for every frame. *)
Lemma payload_ok {W : Type} {SV : Services W} (full_df : DataFrame) :
  exists data, payload full_df = Ok data.
Proof.
  unfold payload. rewrite ensure_schema_normal_form. cbn [rbind].
  destruct (astype_int_col_bools (flag_column_bools SEEN full_df)) as [l1 E1].
  destruct (astype_int_col_bools (flag_column_bools INT full_df)) as [l2 E2].
  destruct (astype_int_col_bools (flag_column_bools SAVE full_df)) as [l3 E3].
  destruct (astype_int_col_bools (flag_column_bools CONT full_df)) as [l4 E4].
  unfold BOOL_COLS. cbn [flags_to_int].
  rewrite !get_col_cons. label_eqb. cbv iota. cbn [rbind]. rewrite E1. cbn [rbind].
  rewrite !get_col_set_col, !get_col_cons. label_eqb. cbv iota. cbn [rbind]. rewrite E2. cbn [rbind].
  rewrite !get_col_set_col, !get_col_cons. label_eqb. cbv iota. cbn [rbind]. rewrite E3. cbn [rbind].
  rewrite !get_col_set_col, !get_col_cons. label_eqb. cbv iota. cbn [rbind]. rewrite E4. cbn [rbind].
  eauto.
Qed.

(* ====================================================================== *)
(** * What the effectful code does to the state                            *)
(* ====================================================================== *)

Section Effects.

Context {W : Type} {SV : Services W}.
Variable secrets : Secrets.
Variable data : string.

Local Abbreviation within := (steps (W := W) (carries data)).

Lemma uploads_app (a b : list Event) : uploads (a ++ b) = (uploads a + uploads b)%nat.
Proof. unfold uploads. now rewrite filter_app, length_app. Qed.

Lemma within_refl (s : State W) : within 0 s s.
Proof.
  split; [repeat split|]. exists []. rewrite app_nil_r. repeat split; auto.
Qed.

Lemma within_set_cached_client (c : option Dropbox) (s : State W) :
  within 0 s (set_cached_client c s).
Proof.
  split; [repeat split|]. exists []. cbn. rewrite app_nil_r. repeat split; auto.
Qed.

Lemma within_set_DBX (c : option Dropbox) (s : State W) : within 0 s (set_DBX c s).
Proof.
  split; [repeat split|]. exists []. cbn. rewrite app_nil_r. repeat split; auto.
Qed.

Lemma within_trans (u1 u2 : nat) (s1 s2 s3 : State W) :
  within u1 s1 s2 -> within u2 s2 s3 -> within (u1 + u2) s1 s3.
Proof.
  intros [[A1 [A2 A3]] [e1 [T1 [F1 U1]]]] [[B1 [B2 B3]] [e2 [T2 [F2 U2]]]].
  split; [repeat split; congruence|].
  exists (e1 ++ e2). rewrite T2, T1, app_assoc, uploads_app.
  repeat split; [now apply Forall_app | lia].
Qed.

Lemma within_weaken (u u' : nat) (s s' : State W) :
  (u <= u')%nat -> within u s s' -> within u' s s'.
Proof.
  intros L [K [evs [T [F U]]]]. split; [exact K|].
  exists evs. repeat split; auto. lia.
Qed.

Lemma post_ret {A : Type} (a : A) : post (within 0) (ret a).
Proof. intros s r s' E. injection E as _ <-. apply within_refl. Qed.

Lemma post_raise {A : Type} (e : exn) : post (within 0) (raise (A := A) e).
Proof. intros s r s' E. injection E as _ <-. apply within_refl. Qed.

Lemma post_lift {A : Type} (x : result A) : post (within 0) (lift x).
Proof. intros s r s' E. injection E as _ <-. apply within_refl. Qed.

Lemma post_get : post (within 0) (get (W := W)).
Proof. intros s r s' E. injection E as _ <-. apply within_refl. Qed.

Lemma post_modify (f : State W -> State W) :
  (forall s, within 0 s (f s)) -> post (within 0) (modify f).
Proof. intros H s r s' E. injection E as _ <-. apply H. Qed.

Lemma post_bind {A B : Type} (u1 u2 : nat) (m : M W A) (k : A -> M W B) :
  post (within u1) m -> (forall a, post (within u2) (k a)) ->
  post (within (u1 + u2)) (bind m k).
Proof.
  intros Hm Hk s r s' E. unfold bind in E.
  destruct (m s) as [[a|e] s1] eqn:E1.
  - eapply within_trans; [eapply Hm, E1 | eapply Hk, E].
  - injection E as _ <-. eapply within_weaken; [|eapply Hm, E1]. lia.
Qed.

Lemma post_try {A : Type} (u1 u2 : nat) (m : M W A) (h : exn -> M W A) :
  post (within u1) m -> (forall e, post (within u2) (h e)) ->
  post (within (u1 + u2)) (try_with m h).
Proof.
  intros Hm Hh s r s' E. unfold try_with in E.
  destruct (m s) as [[a|e] s1] eqn:E1.
  - injection E as _ <-. eapply within_weaken; [|eapply Hm, E1]. lia.
  - eapply within_trans; [eapply Hm, E1 | eapply Hh, E].
Qed.

Lemma post_weaken {A : Type} (u u' : nat) (m : M W A) :
  (u <= u')%nat -> post (within u) m -> post (within u') m.
Proof. intros L H s r s' E. eapply within_weaken; [exact L | eapply H, E]. Qed.

Lemma post_call {A : Type} (e : Event) (f : W -> result A * W) :
  carries data e ->
  post (within (if is_upload e then 1 else 0)) (call e f).
Proof.
  intros He s r s' E. unfold call in E.
  destruct (f (world (log_event e s))) as [r0 w'] eqn:Ef.
  injection E as _ <-. split; [repeat split|].
  exists [e]. repeat split; auto.
  unfold uploads. simpl. destruct (is_upload e); simpl; lia.
Qed.

Lemma post_deref {A : Type} (attr : string) (o : option A) :
  post (within 0) (deref (W := W) attr o).
Proof. destruct o; [apply post_ret | apply post_raise]. Qed.

Lemma post_access_token : post (within 0) (_access_token_from_refresh secrets).
Proof.
  unfold _access_token_from_refresh.
  destruct (DROPBOX_APP_KEY secrets), (DROPBOX_APP_SECRET secrets),
    (DROPBOX_REFRESH_TOKEN secrets); try apply post_ret.
  apply (post_bind (u1 := 0) (u2 := 0)).
  - apply (@post_call _ EvToken). exact I.
  - intros. apply post_ret.
Qed.

Lemma post_build : post (within 0) (_build_dbx_client secrets).
Proof.
  unfold _build_dbx_client.
  apply (post_bind (u1 := 0) (u2 := 0)); [apply post_get|]. intros s.
  destruct (cached_client s); [apply post_ret|].
  apply (post_bind (u1 := 0) (u2 := 0)).
  - destruct (truthy (DROPBOX_ACCESS_TOKEN secrets));
      [apply post_ret | apply post_access_token].
  - intros [t|]; [|apply post_raise].
    destruct (negb (t =? "")); [|apply post_raise].
    apply (post_bind (u1 := 0) (u2 := 0)).
    + apply post_modify. intros s0. apply within_set_cached_client.
    + intros. apply post_ret.
Qed.

Lemma post_refresh : post (within 0) (_refresh_dbx_client secrets).
Proof.
  unfold _refresh_dbx_client.
  apply (post_bind (u1 := 0) (u2 := 0)); [apply post_access_token|].
  intros [t|]; [|apply post_build].
  destruct (negb (t =? "")); [apply post_ret | apply post_build].
Qed.

Lemma post_boot : post (within 0) (boot_dbx secrets).
Proof.
  unfold boot_dbx.
  apply (post_bind (u1 := 0) (u2 := 0)).
  - apply post_modify. intros s. apply within_set_DBX.
  - intros _. apply (post_try (u1 := 0) (u2 := 0)).
    + apply (post_bind (u1 := 0) (u2 := 0)); [apply post_build|].
      intros c. apply post_modify. intros s. apply within_set_DBX.
    + intros e. apply post_ret.
Qed.

Lemma post_ensure_folder_tree (dbx : option Dropbox) (path : option string) :
  post (within 0) (_ensure_folder_tree dbx path).
Proof.
  unfold _ensure_folder_tree.
  apply (post_bind (u1 := 0) (u2 := 0)); [apply post_deref|]. intros p.
  destruct (_ || _); [apply post_ret|].
  apply (post_try (u1 := 0) (u2 := 0)).
  - apply (post_bind (u1 := 0) (u2 := 0)); [apply post_deref|]. intros d.
    apply (@post_call _ (EvCreateFolder d _)). exact I.
  - intros [m|m|m]; [apply post_raise | apply post_ret | apply post_raise].
Qed.

Lemma post_upload (path : option string) : post (within 1) (upload data path).
Proof.
  unfold upload.
  apply (post_bind (u1 := 0) (u2 := 1)); [apply post_get|]. intros s.
  apply (post_bind (u1 := 0) (u2 := 1)); [apply post_deref|]. intros d.
  destruct path as [p|].
  - apply (@post_call _ (EvUpload d data p)). reflexivity.
  - apply (post_weaken (u := 0)); [lia | apply post_raise].
Qed.

Lemma post_attempt (path : option string) : post (within 1) (attempt data path).
Proof.
  unfold attempt.
  apply (post_bind (u1 := 0) (u2 := 1)); [apply post_get|]. intros s.
  apply (post_bind (u1 := 0) (u2 := 1)); [apply post_ensure_folder_tree|]. intros _.
  apply (post_bind (u1 := 1) (u2 := 0)); [apply post_upload|]. intros _.
  apply post_ret.
Qed.

Lemma post_upload_with_auto_refresh (path : option string) :
  post (within 2) (_upload_with_auto_refresh secrets data path).
Proof.
  unfold _upload_with_auto_refresh.
  apply (post_try (u1 := 1) (u2 := 1)); [apply post_attempt|].
  intros [m|m|m]; try (apply (post_weaken (u := 0)); [lia | apply post_ret]).
  apply (post_try (u1 := 1) (u2 := 0)).
  - apply (post_bind (u1 := 0) (u2 := 1)); [apply post_refresh|]. intros c.
    apply (post_bind (u1 := 0) (u2 := 1)).
    + apply post_modify. intros s. apply within_set_DBX.
    + intros _. apply post_attempt.
  - intros e2. apply post_ret.
Qed.

Lemma write_state_df_unfold (full_df : DataFrame) (s : State W) :
  write_state_df secrets full_df s =
  match DBX s with
  | None => (Ok (false, Some "Dropbox not configured"), s)
  | Some _ =>
      match payload full_df with
      | Ok bytes => _upload_with_auto_refresh secrets bytes (STATE_DBX_PATH secrets) s
      | Raise e => (Raise e, s)
      end
  end.
Proof.
  unfold write_state_df, payload, bind, get, lift, ret.
  destruct (DBX s); [|reflexivity].
  destruct (_ensure_schema full_df) as [out|e]; [|reflexivity]. cbn [rbind].
  destruct (flags_to_int BOOL_COLS out); reflexivity.
Qed.

Lemma post_write_state_df (full_df : DataFrame) :
  payload full_df = Ok data ->
  post (within 2) (write_state_df secrets full_df).
Proof.
  intros Hp s r s' E. rewrite write_state_df_unfold, Hp in E.
  destruct (DBX s).
  - eapply post_upload_with_auto_refresh, E.
  - injection E as _ <-. eapply within_weaken; [|apply within_refl]. lia.
Qed.

End Effects.

(* ====================================================================== *)
(** * The write path                                                       *)
(* ====================================================================== *)

Section WritePath.

Context {W : Type} {SV : Services W}.
Variable secrets : Secrets.

Lemma attempt_value (bytes : string) (path : option string) (s s1 : State W)
      (a : bool * option string) :
  attempt bytes path s = (Ok a, s1) -> a = (true, None).
Proof.
  unfold attempt, bind, get, ret.
  destruct (_ensure_folder_tree (DBX s) path s) as [[[]|e] s'];
    [|discriminate].
  destruct (upload bytes path s') as [[[]|e] s'']; [|discriminate].
  intros E. injection E as <- _. reflexivity.
Qed.

(** What _upload_with_auto_refresh returns, by the outcome of the first
    attempt, of the refresh and of the second attempt. *)
Lemma upload_with_auto_refresh_cases (bytes : string) (path : option string)
      (s : State W) :
  match attempt bytes path s with
  | (Ok _, s1) =>
      _upload_with_auto_refresh secrets bytes path s = (Ok (true, None), s1)
  | (Raise (ApiError m), s1) =>
      _upload_with_auto_refresh secrets bytes path s =
      (Ok (false, Some ("ApiError: " ++ m)%string), s1)
  | (Raise (PyError m), s1) =>
      _upload_with_auto_refresh secrets bytes path s =
      (Ok (false, Some ("Write error: " ++ m)%string), s1)
  | (Raise (AuthError _), s1) =>
      match _refresh_dbx_client secrets s1 with
      | (Raise e2, s2) =>
          _upload_with_auto_refresh secrets bytes path s =
          (Ok (false, Some ("AuthError after refresh: " ++ exn_str e2)%string), s2)
      | (Ok c, s2) =>
          match attempt bytes path (set_DBX (Some c) s2) with
          | (Ok _, s3) =>
              _upload_with_auto_refresh secrets bytes path s = (Ok (true, None), s3)
          | (Raise e2, s3) =>
              _upload_with_auto_refresh secrets bytes path s =
              (Ok (false, Some ("AuthError after refresh: " ++ exn_str e2)%string), s3)
          end
      end
  end.
Proof.
  unfold _upload_with_auto_refresh, try_with.
  destruct (attempt bytes path s) as [[a|[m|m|m]] s1] eqn:E1; try reflexivity.
  - now rewrite (attempt_value _ _ _ E1).
  - unfold bind, modify, ret.
    destruct (_refresh_dbx_client secrets s1) as [[c|e2] s2]; [|reflexivity].
    destruct (attempt bytes path (set_DBX (Some c) s2)) as [[a|e2] s3] eqn:E3;
      [|reflexivity].
    now rewrite (attempt_value _ _ _ E3).
Qed.

Lemma upload_with_auto_refresh_returns (bytes : string) (path : option string)
      (s : State W) :
  exists r s', _upload_with_auto_refresh secrets bytes path s = (Ok r, s') /\
               result_shape r.
Proof.
  pose proof (upload_with_auto_refresh_cases bytes path s) as H.
  destruct (attempt bytes path s) as [[a|[m|m|m]] s1].
  - rewrite H. eexists _, _. split; [reflexivity|]. now left.
  - destruct (_refresh_dbx_client secrets s1) as [[c|e2] s2].
    + destruct (attempt bytes path (set_DBX (Some c) s2)) as [[a|e2] s3];
        rewrite H; eexists _, _; (split; [reflexivity|]).
      * now left.
      * right. eexists. split; [reflexivity|]. right. left. eauto.
    + rewrite H. eexists _, _. split; [reflexivity|].
      right. eexists. split; [reflexivity|]. right. left. eauto.
  - rewrite H. eexists _, _. split; [reflexivity|].
    right. eexists. split; [reflexivity|]. right. right. left. eauto.
  - rewrite H. eexists _, _. split; [reflexivity|].
    right. eexists. split; [reflexivity|]. right. right. right. eauto.
Qed.

(** write_state_df returns on every frame and in every state: it never
    raises, its result has the contract's shape, the session entries are
    untouched and at most two uploads are made, all of the same bytes. *)
Lemma write_state_df_returns (full_df : DataFrame) (s : State W) :
  exists r s' bytes,
    write_state_df secrets full_df s = (Ok r, s') /\ result_shape r /\
    payload full_df = Ok bytes /\ steps (carries bytes) 2 s s'.
Proof.
  destruct (payload_ok (SV := SV) full_df) as [bytes Hp].
  pose proof (@post_write_state_df _ _ secrets bytes full_df Hp s) as Hpost.
  rewrite write_state_df_unfold, Hp in *.
  destruct (DBX s).
  - destruct (upload_with_auto_refresh_returns bytes (STATE_DBX_PATH secrets) s)
      as [r [s' [E Hr]]].
    exists r, s', bytes. rewrite E in *. repeat split; auto.
    all: now apply (Hpost _ _ eq_refl).
  - eexists _, s, bytes. split; [reflexivity|]. split.
    + right. eexists. split; [reflexivity|]. now left.
    + split; [reflexivity|]. now apply (Hpost _ _ eq_refl).
Qed.

End WritePath.

(** C1, amended: write_state_df never raises and every result is
    (True, None) or (False, descriptive error); the session entries are
    untouched and at most two uploads are made.  Without a client the
    result is the "not configured" error.  Otherwise: a first attempt
    (folder check, then upload) that goes through gives (True, None); one
    that raises an ApiError or any other non-authentication error gives
    (False, error) at once, with nothing further called; one that raises
    an AuthError is followed by one call of the credential refresh and,
    when the refresh returns a client, by one second attempt with it:
    (True, None) if that goes through, (False, "AuthError after
    refresh: ...") if the refresh or the second attempt raises. *)
Theorem write_state_df_contract {W : Type} {SV : Services W} (secrets : Secrets)
        (full_df : DataFrame) (s : State W) :
  (exists r s' bytes,
      write_state_df secrets full_df s = (Ok r, s') /\ result_shape r /\
      payload full_df = Ok bytes /\ steps (carries bytes) 2 s s') /\
  (DBX s = None ->
     write_state_df secrets full_df s =
     (Ok (false, Some "Dropbox not configured"), s)) /\
  (forall d bytes, DBX s = Some d -> payload full_df = Ok bytes ->
     let path := STATE_DBX_PATH secrets in
     let write := write_state_df secrets full_df s in
     match attempt bytes path s with
     | (Ok _, s1) => write = (Ok (true, None), s1)
     | (Raise (ApiError m), s1) =>
         write = (Ok (false, Some ("ApiError: " ++ m)%string), s1)
     | (Raise (PyError m), s1) =>
         write = (Ok (false, Some ("Write error: " ++ m)%string), s1)
     | (Raise (AuthError _), s1) =>
         match _refresh_dbx_client secrets s1 with
         | (Raise e2, s2) =>
             write = (Ok (false, Some ("AuthError after refresh: " ++ exn_str e2)%string), s2)
         | (Ok c, s2) =>
             match attempt bytes path (set_DBX (Some c) s2) with
             | (Ok _, s3) => write = (Ok (true, None), s3)
             | (Raise e2, s3) =>
                 write = (Ok (false, Some ("AuthError after refresh: " ++ exn_str e2)%string), s3)
             end
         end
     end).
Proof.
  split; [apply write_state_df_returns|]. split.
  - intros Hd. now rewrite write_state_df_unfold, Hd.
  - intros d bytes Hd Hp. cbv zeta. rewrite write_state_df_unfold, Hd, Hp.
    apply upload_with_auto_refresh_cases.
Qed.

(** An expired token at the upload, then a refresh that works: the write
    succeeds with two uploads and one call of the token endpoint. *)
Lemma write_state_df_contract_witness :
  let s := Scripted.running [None; Some (AuthError "expired_access_token")]
                            [Scripted.jane] [Scripted.jane] in
  let run := write_state_df Scripted.refresh_flow (df_of_table [Scripted.jane]) s in
  fst run = Ok (true, None) /\
  uploads (trace (snd run)) = 2%nat /\ refreshes (trace (snd run)) = 1%nat.
Proof.
  cbv zeta.
  pose proof (proj2 (proj2 (write_state_df_contract Scripted.refresh_flow
      (df_of_table [Scripted.jane])
      (Scripted.running [None; Some (AuthError "expired_access_token")]
                        [Scripted.jane] [Scripted.jane])))
      Scripted.old_client (Scripted.saved_csv [Scripted.jane])
      eq_refl eq_refl) as H.
  cbv zeta in H.
  remember (write_state_df _ _ _) as run eqn:Erun in *.
  vm_compute in H. rewrite H. vm_compute. repeat split.
Defined.

(** C1, as stated, fails: the first upload raises an AuthError and the
    token endpoint then fails too.  The write is not repeated: one upload
    was attempted, not two, and the result is the error of the refresh. *)
Lemma write_retry_counterexample :
  let s := Scripted.running
             [None; Some (AuthError "expired_access_token");
              Some (PyError "503 Server Error")]
             [Scripted.jane] [Scripted.jane] in
  let bytes := Scripted.saved_csv [Scripted.jane] in
  let first := attempt bytes (STATE_DBX_PATH Scripted.refresh_flow) s in
  let run := write_state_df Scripted.refresh_flow (df_of_table [Scripted.jane]) s in
  fst first = Raise (AuthError "expired_access_token") /\
  uploads (trace (snd first)) = 1%nat /\
  fst run = Ok (false, Some "AuthError after refresh: 503 Server Error") /\
  uploads (trace (snd run)) = 1%nat /\
  uploads (trace (snd run)) <> 2%nat.
Proof.
  vm_compute. repeat split. discriminate.
Qed.

(* ====================================================================== *)
(** * The sync controller                                                  *)
(* ====================================================================== *)

Section Controller.

Context {W : Type} {SV : Services W}.
Variable secrets : Secrets.

(** The client boot never raises, makes no upload and keeps the session. *)
Lemma boot_returns (s : State W) :
  exists s0, boot_dbx secrets s = (Ok tt, s0) /\
             forall bytes, steps (carries bytes) 0 s s0.
Proof.
  assert (E : exists s0, boot_dbx secrets s = (Ok tt, s0)).
  { unfold boot_dbx, bind at 1, modify at 1, try_with.
    destruct ((c <- _build_dbx_client secrets ;; modify (set_DBX (Some c)))%py
                (set_DBX None s)) as [[[]|e] s0]; eexists; reflexivity. }
  destruct E as [s0 E]. exists s0. split; [exact E|].
  intros bytes. eapply post_boot, E.
Qed.

(** The auto-save block, run symbolically. *)
Lemma autosave_block_unfold (autosave : bool) (edited : Table) (now : Q)
      (s : State W) :
  autosave_block secrets autosave edited now s =
  let curr := with_key edited in
  let ch := changes s edited in
  if autosave && negb (Nat.eqb (length ch) 0) then
    if due s now then
      let full := optimistic_merge (df s) ch in
      match write_state_df secrets (df_of_table full) (set_df full s) with
      | (Ok (true, _), s1) =>
          (Ok (Committed (length ch)),
           set_snapshot_all (Some curr) (set_last_save_ts now s1))
      | (Ok (false, err), s1) =>
          (Ok (RolledBack err),
           init_snapshot curr (set_df (df s) (set_last_save_ts now s1)))
      | (Raise e, s1) => (Raise e, s1)
      end
    else (Ok Debounced, init_snapshot curr s)
  else (Ok NoWrite, init_snapshot curr s).
Proof.
  unfold autosave_block, changes, due, init_snapshot. cbv zeta.
  unfold bind at 1. unfold get at 1.
  destruct (autosave && negb (Nat.eqb (length (_diff_rows (snapshot_all s) (with_key edited))) 0)).
  - destruct (Qle_bool AUTOSAVE_DEBOUNCE_SEC (now - last_save_ts s)).
    + unfold bind, modify, get, ret. cbn [df].
      destruct (write_state_df secrets _ (set_df _ s)) as [[[[|] err]|e] s1];
        cbn [fst snd]; try reflexivity.
      cbn [snapshot_all set_df set_last_save_ts].
      destruct (snapshot_all s1); reflexivity.
    + unfold bind, get, ret. destruct (snapshot_all s); reflexivity.
  - unfold bind, get, ret. destruct (snapshot_all s); reflexivity.
Qed.

Lemma changes_need_snapshot (s : State W) (edited : Table) :
  changes s edited <> [] ->
  exists p, snapshot_all s = Some p /\ p <> [] /\
    exists c, In c (with_key edited) /\ (differs_from p c \/ ~ key_in (_k c) p).
Proof.
  unfold changes. intros H.
  destruct (snapshot_all s) as [[|o p]|]; try (now destruct H).
  exists (o :: p). split; [reflexivity|]. split; [discriminate|].
  destruct (_diff_rows (Some (o :: p)) (with_key edited)) as [|c l] eqn:E;
    [now destruct H|].
  assert (Hc : In c (_diff_rows (Some (o :: p)) (with_key edited)))
    by (rewrite E; now left).
  apply In_diff_rows in Hc; [|discriminate]. exists c. exact Hc.
Qed.

Lemma length_nonzero {A : Type} (l : list A) :
  negb (Nat.eqb (length l) 0) = true <-> l <> [].
Proof. destruct l; simpl; split; congruence. Qed.

Lemma kept_changes (s s0 : State W) (edited : Table) :
  session_kept s s0 -> changes s0 edited = changes s edited.
Proof. intros [_ [_ H]]. unfold changes. now rewrite H. Qed.

Lemma kept_due (s s0 : State W) (now : Q) :
  session_kept s s0 -> due s0 now = due s now.
Proof. intros [_ [H _]]. unfold due. now rewrite H. Qed.

Lemma init_snapshot_set (curr : list KRow) (s : State W) :
  snapshot_all s <> None -> init_snapshot curr s = s.
Proof. unfold init_snapshot. destruct (snapshot_all s); congruence. Qed.

(** Every run returns, in one of the five ways of [run_spec]. *)
Lemma script_run_spec (autosave : bool) (edited : Table) (now : Q) (s : State W) :
  exists o s', script_run secrets autosave edited now s = (Ok o, s') /\
               run_spec secrets autosave edited now s o s'.
Proof.
  destruct (boot_returns s) as [s0 [Eb Hb]].
  unfold script_run, bind. rewrite Eb.
  destruct edited as [|r0 t0].
  { eexists _, _. split; [reflexivity|]. now constructor. }
  assert (Hne : r0 :: t0 <> []) by discriminate.
  set (edited := r0 :: t0) in *. clearbody edited.
  rewrite autosave_block_unfold. cbv zeta.
  pose proof (proj1 (Hb "")) as K.
  rewrite (kept_changes edited K), (kept_due now K).
  destruct autosave; cbn [andb].
  2:{ eexists _, _. split; [reflexivity|]. constructor; auto. }
  destruct (negb (Nat.eqb (length (changes s edited)) 0)) eqn:En.
  2:{ eexists _, _. split; [reflexivity|]. constructor; auto. right.
      destruct (changes s edited); [reflexivity | discriminate]. }
  assert (Hch : changes s edited <> []) by now apply length_nonzero.
  destruct (changes_need_snapshot s edited Hch) as [p [Hp _]].
  destruct (due s now) eqn:Edue.
  2:{ rewrite init_snapshot_set.
      - eexists _, _. split; [reflexivity|]. now constructor.
      - destruct K as [_ [_ K3]]. rewrite K3, Hp. discriminate. }
  destruct K as [K1 K23]. rewrite K1.
  set (full := optimistic_merge (df s) (changes s edited)).
  destruct (write_state_df_returns secrets (df_of_table full) (set_df full s0))
    as [[ok err] [s1 [bytes [Ew [Hr [Hpay Hst]]]]]].
  rewrite Ew. destruct ok.
  - eexists _, _. split; [reflexivity|].
    eapply run_committed; eauto.
  - rewrite init_snapshot_set.
    + eexists _, _. split; [reflexivity|].
      eapply run_rolled_back; eauto.
    + cbn [snapshot_all set_df set_last_save_ts].
      destruct Hst as [[_ [_ H3]] _]. rewrite H3. cbn [snapshot_all set_df].
      destruct K23 as [_ K3]. rewrite K3, Hp. discriminate.
Qed.

End Controller.

Lemma trace_init_snapshot {W : Type} (curr : list KRow) (s : State W) :
  trace (init_snapshot curr s) = trace s.
Proof. unfold init_snapshot. destruct (snapshot_all s); reflexivity. Qed.

Lemma steps_no_upload {W : Type} (P : Event -> Prop) (s s0 : State W) :
  steps P 0 s s0 -> uploads (trace s0) = uploads (trace s).
Proof.
  intros [_ [evs [T [_ U]]]]. rewrite T, uploads_app. lia.
Qed.

(** C2: in every run in which the write fails, for whatever reason, the
    table of the session is again the table of before the optimistic
    merge, the baseline snapshot is unchanged, and the time of the run is
    recorded as the last save time. *)
Theorem rollback_restores {W : Type} {SV : Services W} (secrets : Secrets)
        (autosave : bool) (edited : Table) (now : Q) (s s' : State W)
        (err : option string) :
  script_run secrets autosave edited now s = (Ok (RolledBack err), s') ->
  df s' = df s /\ snapshot_all s' = snapshot_all s /\ last_save_ts s' = now /\
  exists s0 s1,
    write_state_df secrets
      (df_of_table (optimistic_merge (df s) (changes s edited)))
      (set_df (optimistic_merge (df s) (changes s edited)) s0) = (Ok (false, err), s1).
Proof.
  intros H.
  destruct (script_run_spec secrets autosave edited now s) as [o [s2 [E R]]].
  rewrite E in H. injection H as -> ->.
  inversion R as [| | | |s0 s1 bytes err0 Hne Ha Hch Hd Hp Hb Hw Ew]; subst.
  cbn [df snapshot_all last_save_ts set_df set_last_save_ts].
  split; [reflexivity|]. split; [|split; [reflexivity | eauto]].
  destruct Hw as [[_ [_ H3]] _]. destruct Hb as [[_ [_ K3]] _].
  rewrite H3. cbn [snapshot_all set_df]. exact K3.
Qed.

Lemma rollback_restores_witness :
  let s := Scripted.running [Some (ApiError "insufficient_space")]
             [Scripted.jane; Scripted.amir] [Scripted.jane; Scripted.amir] in
  let run := script_run Scripted.static_token true
               [Scripted.mark_seen Scripted.jane; Scripted.amir] 1000 s in
  fst run = Ok (RolledBack (Some "ApiError: insufficient_space")) /\
  df (snd run) = [Scripted.jane; Scripted.amir] /\
  snapshot_all (snd run) = Some (with_key [Scripted.jane; Scripted.amir]) /\
  last_save_ts (snd run) = 1000.
Proof.
  cbv zeta. split; [vm_compute; reflexivity|].
  destruct (@rollback_restores _ _ Scripted.static_token true
              [Scripted.mark_seen Scripted.jane; Scripted.amir] 1000
              (Scripted.running [Some (ApiError "insufficient_space")]
                 [Scripted.jane; Scripted.amir] [Scripted.jane; Scripted.amir])
              (snd (script_run Scripted.static_token true
                 [Scripted.mark_seen Scripted.jane; Scripted.amir] 1000
                 (Scripted.running [Some (ApiError "insufficient_space")]
                    [Scripted.jane; Scripted.amir] [Scripted.jane; Scripted.amir])))
              (Some "ApiError: insufficient_space"))
    as [H1 [H2 [H3 _]]].
  - vm_compute. reflexivity.
  - rewrite H1, H2, H3. repeat split.
Defined.

(** C3, as stated, fails.  A first run saves an edit made while the search
    shows Jane only, so the baseline snapshot holds Jane only.  The next
    run shows the whole table again with no flag edited: the view equals
    the table of the session and agrees with the snapshot on every key
    they share, and the row the snapshot lacks has all four flags false.
    Still a write is issued. *)
Lemma write_without_change_counterexample :
  let s0 := Scripted.fresh_session [] [Scripted.jane; Scripted.amir] in
  let run1 := script_run Scripted.static_token true
                [Scripted.mark_seen Scripted.jane] 1000 s0 in
  let s1 := snd run1 in
  let view := [Scripted.mark_seen Scripted.jane; Scripted.amir] in
  let run2 := script_run Scripted.static_token true view 1010 s1 in
  df s1 = view /\
  snapshot_all s1 = Some (with_key [Scripted.mark_seen Scripted.jane]) /\
  agree_on_matching (with_key [Scripted.mark_seen Scripted.jane]) (with_key view) /\
  flags Scripted.amir = Scripted.no_flags /\
  fst run2 = Ok (Committed 1) /\
  uploads (trace (snd run2)) = S (uploads (trace s1)).
Proof.
  cbv zeta. split; [vm_compute; reflexivity|]. split; [vm_compute; reflexivity|].
  split.
  - intros c o Hc Ho Hk. simpl in Hc, Ho.
    destruct Ho as [<-|[]]. destruct Hc as [<-|[<-|[]]]; [reflexivity|].
    vm_compute in Hk. discriminate.
  - split; [reflexivity|]. split; vm_compute; reflexivity.
Qed.

(** C3, amended: a run calls the write only if auto-save is on, the
    debounce interval has elapsed, the baseline snapshot is present and
    not empty, and some row of the edited view either has other flags than
    a snapshot row with its key or has a key the snapshot lacks; a run
    that does not call the write makes no upload. *)
Theorem write_needs_changes {W : Type} {SV : Services W} (secrets : Secrets)
        (autosave : bool) (edited : Table) (now : Q) (s s' : State W)
        (o : Outcome) :
  script_run secrets autosave edited now s = (Ok o, s') ->
  (wrote o = true ->
     autosave = true /\ due s now = true /\
     exists p, snapshot_all s = Some p /\ p <> [] /\
       exists c, In c (with_key edited) /\
                 (differs_from p c \/ ~ key_in (_k c) p)) /\
  (wrote o = false -> uploads (trace s') = uploads (trace s)).
Proof.
  intros H.
  destruct (script_run_spec secrets autosave edited now s) as [o2 [s2 [E R]]].
  rewrite E in H. injection H as -> ->.
  inversion R; subst; cbn [wrote]; (split; intros Hw; try discriminate).
  - now apply steps_no_upload with (P := carries "").
  - rewrite trace_init_snapshot. now apply steps_no_upload with (P := carries "").
  - now apply steps_no_upload with (P := carries "").
  - repeat split; auto. now apply changes_need_snapshot.
  - repeat split; auto. now apply changes_need_snapshot.
Qed.

Lemma write_needs_changes_witness :
  let s := Scripted.fresh_session [] [Scripted.jane; Scripted.amir] in
  let view := [Scripted.mark_seen Scripted.jane; Scripted.amir] in
  fst (script_run Scripted.static_token true view 1000 s) = Ok (Committed 1) /\
  exists c, In c (with_key view) /\
            (differs_from (with_key [Scripted.jane; Scripted.amir]) c \/
             ~ key_in (_k c) (with_key [Scripted.jane; Scripted.amir])).
Proof.
  cbv zeta. split; [vm_compute; reflexivity|].
  destruct (@write_needs_changes _ _ Scripted.static_token true
              [Scripted.mark_seen Scripted.jane; Scripted.amir] 1000
              (Scripted.fresh_session [] [Scripted.jane; Scripted.amir])
              (snd (script_run Scripted.static_token true
                 [Scripted.mark_seen Scripted.jane; Scripted.amir] 1000
                 (Scripted.fresh_session [] [Scripted.jane; Scripted.amir])))
              (Committed 1)) as [H _].
  - vm_compute. reflexivity.
  - destruct (H eq_refl) as [_ [_ [p [Hp [_ Hc]]]]].
    injection Hp as <-. exact Hc.
Defined.

(* ====================================================================== *)
(** * Debounce                                                             *)
(* ====================================================================== *)

Lemma changes_nil {W : Type} (s : State W) : changes s [] = [].
Proof.
  unfold changes. destruct (snapshot_all s) as [[|o p]|]; reflexivity.
Qed.

Lemma inside_window (t : Q) : Qle_bool AUTOSAVE_DEBOUNCE_SEC (t + 0.1 - t) = false.
Proof.
  destruct (Qle_bool AUTOSAVE_DEBOUNCE_SEC (t + 0.1 - t)) eqn:E; [|reflexivity].
  apply Qle_bool_iff in E.
  assert (H : t + 0.1 - t == 0.1) by ring.
  rewrite H in E. unfold AUTOSAVE_DEBOUNCE_SEC, Qle in E. simpl in E. lia.
Qed.

Lemma outside_window (t : Q) : Qle_bool AUTOSAVE_DEBOUNCE_SEC (t + 0.4 - t) = true.
Proof.
  apply Qle_bool_iff.
  assert (H : t + 0.4 - t == 0.4) by ring.
  rewrite H. unfold AUTOSAVE_DEBOUNCE_SEC, Qle. simpl. lia.
Qed.

(** C9, as stated, fails on its first half.  Two edits arrive 0.1 s apart
    in a session whose last save is long past: the run of the first edit
    writes at once, with that edit only; the run of the second edit is
    inside the debounce window and writes nothing.  So there is exactly one
    write, and it does not hold the second edit. *)
Lemma debounce_union_counterexample :
  let s0 := Scripted.fresh_session [] [Scripted.jane; Scripted.amir] in
  let edit1 := [Scripted.mark_seen Scripted.jane; Scripted.amir] in
  let edit12 := [Scripted.mark_seen Scripted.jane;
                 Scripted.mark_contacted Scripted.amir] in
  let run1 := script_run Scripted.static_token true edit1 1000 s0 in
  let run2 := script_run Scripted.static_token true edit12 (1000 + 0.1) (snd run1) in
  fst run1 = Ok (Committed 1) /\
  fst run2 = Ok Debounced /\
  trace (snd run2) =
    [EvUpload (mkDropbox "static-token") (Scripted.saved_csv edit1) "/state.csv"] /\
  Scripted.saved_csv edit1 <> Scripted.saved_csv edit12 /\
  df (snd run2) = edit1.
Proof.
  cbv zeta. repeat split; try (vm_compute; reflexivity).
  vm_compute. discriminate.
Qed.

(** Edits that land inside the window are not lost: a run inside the
    window leaves table, snapshot and last save time as they were, so the
    next run outside the window diffs its whole view against the same
    snapshot and writes all pending changes together. *)
Lemma pending_edits_coalesce {W : Type} {SV : Services W} (secrets : Secrets)
      (s s1 : State W) (v1 v2 : Table) (t1 : Q) (o1 : Outcome) :
  snapshot_all s <> None ->
  due s t1 = false ->
  script_run secrets true v1 t1 s = (Ok o1, s1) ->
  wrote o1 = false /\ df s1 = df s /\ last_save_ts s1 = last_save_ts s /\
  snapshot_all s1 = snapshot_all s /\ changes s1 v2 = changes s v2.
Proof.
  intros Hsnap Hdue H.
  destruct (script_run_spec secrets true v1 t1 s) as [o [s' [E R]]].
  rewrite E in H. injection H as -> ->.
  assert (A : wrote o1 = false /\ session_kept s s1).
  { inversion R as [s0 Hv Hb|s0 Hv Hc Hb|s0 Hv Ha Hc Hd Hb| |]; subst;
      try congruence.
    - split; [reflexivity | apply Hb].
    - split; [reflexivity|]. destruct Hb as [K _].
      rewrite init_snapshot_set; [exact K|].
      destruct K as [_ [_ K3]]. now rewrite K3.
    - split; [reflexivity | apply Hb]. }
  destruct A as [A1 [K1 [K2 K3]]]. repeat split; auto.
  unfold changes. now rewrite K3.
Qed.

(* ====================================================================== *)
(** * The scenario of the specification                                    *)
(* ====================================================================== *)

(** The CSV line Jane,Doe,https://x/cv.pdf,,,, normalises to four false
    flags; ticking "seen" and saving stores Jane,Doe,https://x/cv.pdf,1,0,0,0. *)
Example scenario_jane :
  _ensure_schema
    (mkDF 1 [ (FIRST, [VStr "Jane"]); (LAST, [VStr "Doe"]);
              (FILE, [VStr "https://x/cv.pdf"]);
              (SEEN, [VNaN]); (INT, [VNaN]); (SAVE, [VNaN]); (CONT, [VNaN]) ])
  = Ok (df_of_table [Scripted.jane]) /\
  let run := script_run Scripted.static_token true
               [Scripted.mark_seen Scripted.jane] 1000
               (Scripted.fresh_session [] [Scripted.jane]) in
  fst run = Ok (Committed 1) /\
  trace (snd run) =
    [EvUpload (mkDropbox "static-token")
       ("first_name,last_name,file_name,seen,intend_view,cv_saved,contacted"
          ++ Scripted.nl ++ "Jane,Doe,https://x/cv.pdf,1,0,0,0" ++ Scripted.nl)
       "/state.csv"].
Proof. split; [reflexivity|]. cbv zeta. split; vm_compute; reflexivity. Qed.

(* ====================================================================== *)
(** * The read path                                                        *)
(* ====================================================================== *)

Module PyUrlFacts.
Import PyUrl.

Lemma starts_with_app (sep t : string) : starts_with sep (sep ++ t) = true.
Proof.
  induction sep as [|a sep IH]; simpl; [reflexivity|].
  now rewrite Ascii.eqb_refl, IH.
Qed.

Lemma drop_app (sep t : string) : drop (String.length sep) (sep ++ t) = t.
Proof. induction sep as [|a sep IH]; simpl; [reflexivity | exact IH]. Qed.

Lemma starts_with_sound (sep s : string) :
  starts_with sep s = true -> s = (sep ++ drop (String.length sep) s)%string.
Proof.
  revert s. induction sep as [|a sep IH]; intros s H; simpl in *; [reflexivity|].
  destruct s as [|b s]; [discriminate|].
  apply andb_true_iff in H as [Hab Hs]. apply Ascii.eqb_eq in Hab. subst b.
  simpl. f_equal. now apply IH.
Qed.

(** Whether [s] starts with [sep] is decided by its first len(sep)
    characters. *)
Lemma starts_with_app_long (sep x t : string) :
  (String.length sep <= String.length x)%nat ->
  starts_with sep (x ++ t) = starts_with sep x.
Proof.
  revert x. induction sep as [|a sep IH]; intros x H; simpl in *; [reflexivity|].
  destruct x as [|b x]; simpl in *; [lia|].
  rewrite IH by lia. reflexivity.
Qed.

Lemma partition_sound (sep s b t : string) :
  partition sep s = Some (b, t) -> s = (b ++ sep ++ t)%string.
Proof.
  revert b. induction s as [|c s IH]; intros b H.
  - simpl in H. destruct (starts_with sep "") eqn:E; [|discriminate].
    injection H as <- <-. simpl. now apply starts_with_sound.
  - cbn [partition] in H. destruct (starts_with sep (String c s)) eqn:E.
    + injection H as <- <-. simpl. now apply starts_with_sound.
    + destruct (partition sep s) as [[b' t']|]; [|discriminate].
      injection H as <- <-. simpl. f_equal. now apply IH.
Qed.

Lemma append_assoc (a b c : string) : ((a ++ b) ++ c = a ++ b ++ c)%string.
Proof. induction a as [|x a IH]; simpl; [reflexivity | now rewrite IH]. Qed.

Lemma length_append (a b : string) :
  String.length (a ++ b) = (String.length a + String.length b)%nat.
Proof. induction a as [|x a IH]; simpl; [reflexivity | now rewrite IH]. Qed.

(** The place of the first occurrence does not depend on what follows
    it. *)
Lemma partition_retail (sep s b t t' : string) :
  partition sep s = Some (b, t) ->
  partition sep (b ++ sep ++ t') = Some (b, t').
Proof.
  revert b. induction s as [|c s IH]; intros b H.
  - simpl in H. destruct (starts_with sep "") eqn:E; [|discriminate].
    injection H as <- <-. cbn [append].
    destruct sep; [|discriminate]. destruct t'; reflexivity.
  - cbn [partition] in H. destruct (starts_with sep (String c s)) eqn:E.
    + injection H as <- _. cbn [append].
      assert (P : partition sep (sep ++ t') = Some ("", t')).
      { destruct (sep ++ t')%string eqn:Es.
        - simpl. rewrite <- Es, starts_with_app, drop_app. reflexivity.
        - cbn [partition]. rewrite <- Es, starts_with_app, drop_app. reflexivity. }
      exact P.
    + destruct (partition sep s) as [[b' t0]|] eqn:Ep; [|discriminate].
      injection H as Hb Ht. subst b t0.
      pose proof (partition_sound _ _ Ep) as Hs. subst s.
      cbn [append partition].
      assert (F : starts_with sep (String c (b' ++ sep ++ t')) = false).
      { change (String c (b' ++ sep ++ t'))%string
          with (String c b' ++ (sep ++ t'))%string.
        rewrite <- append_assoc.
        rewrite starts_with_app_long by (rewrite length_append; simpl; lia).
        change (String c (b' ++ sep ++ t))%string
          with (String c b' ++ (sep ++ t))%string in E.
        rewrite <- append_assoc in E.
        rewrite starts_with_app_long in E by (rewrite length_append; simpl; lia).
        exact E. }
      rewrite F, (IH b' eq_refl). reflexivity.
Qed.

(** A URL without "dl=" that gets "?dl=1" or "&dl=1" appended has its
    first "dl=" in the appended part. *)
Lemma partition_appended (u : string) (c0 : ascii) :
  partition "dl=" u = None -> c0 = "?"%char \/ c0 = "&"%char ->
  partition "dl=" (u ++ String c0 "dl=1") = Some ((u ++ String c0 "")%string, "1").
Proof.
  intros H Hc. induction u as [|c u IH].
  - destruct Hc as [->| ->]; reflexivity.
  - cbn [partition] in H.
    destruct (starts_with "dl=" (String c u)) eqn:E; [discriminate|].
    destruct (partition "dl=" u) as [[b t]|] eqn:Ep; [discriminate|].
    cbn [append partition]. rewrite (IH eq_refl).
    assert (F : starts_with "dl=" (String c (u ++ String c0 "dl=1")) = false).
    { clear IH Ep H. cbn [starts_with] in *.
      destruct (Ascii.eqb "d" c); [|reflexivity]. cbn [andb] in *.
      destruct u as [|c2 u]; cbn [append starts_with] in *.
      - destruct Hc as [->| ->]; reflexivity.
      - destruct (Ascii.eqb "l" c2); [|reflexivity]. cbn [andb] in *.
        destruct u as [|c3 u]; cbn [append starts_with] in *.
        + destruct Hc as [->| ->]; reflexivity.
        + destruct (Ascii.eqb "=" c3); [discriminate | reflexivity]. }
    rewrite F. reflexivity.
Qed.

Lemma append_nonempty (a b : string) : b <> "" -> ((a ++ b)%string =? "") = false.
Proof.
  intros H. destruct a; simpl; [|reflexivity].
  destruct b; [congruence | reflexivity].
Qed.

End PyUrlFacts.

(** The shape _force_dl1 gives a non-empty URL, and that it keeps it. *)
Lemma force_dl1_on_forced (base X : string) :
  PyUrl.partition "dl=" (base ++ "dl=1" ++ X) = Some (base, ("1" ++ X)%string) ->
  X = "" \/ (exists rest, X = ("&" ++ rest)%string /\ rest <> "") ->
  _force_dl1 (Some (base ++ "dl=1" ++ X)%string) = Some (base ++ "dl=1" ++ X)%string.
Proof.
  intros Hp HX. unfold _force_dl1.
  rewrite PyUrlFacts.append_nonempty by (simpl; discriminate).
  rewrite Hp. destruct HX as [->|[rest [-> Hr]]].
  - reflexivity.
  - simpl. destruct rest as [|c r]; [congruence|]. reflexivity.
Qed.

Lemma force_dl1_shape (u : string) :
  u <> "" ->
  exists base X,
    _force_dl1 (Some u) = Some (base ++ "dl=1" ++ X)%string /\
    PyUrl.partition "dl=" (base ++ "dl=1" ++ X) = Some (base, ("1" ++ X)%string) /\
    (X = "" \/ exists rest, X = ("&" ++ rest)%string /\ rest <> "").
Proof.
  intros Hu. unfold _force_dl1.
  destruct (String.eqb_spec u "") as [E|_]; [congruence|].
  destruct (PyUrl.partition "dl=" u) as [[base tail]|] eqn:Ep.
  - set (rest := if PyStr.contains_char "&" tail
                 then PyUrl.after_char "&" tail else "").
    exists base, (if negb (rest =? "") then "&" ++ rest else "")%string.
    split; [reflexivity|]. split.
    + change (base ++ "dl=1" ++ ?x)%string with (base ++ "dl=" ++ ("1" ++ x))%string.
      eapply PyUrlFacts.partition_retail, Ep.
    + destruct (String.eqb_spec rest "") as [E|N]; simpl; [now left|].
      right. eauto.
  - set (c0 := if PyStr.contains_char "?" u then "&"%char else "?"%char).
    exists (u ++ String c0 "")%string, "".
    assert (Hc : c0 = "?"%char \/ c0 = "&"%char).
    { unfold c0. destruct (PyStr.contains_char "?" u); auto. }
    split; [|split; [|now left]].
    + f_equal. rewrite PyUrlFacts.append_assoc. unfold c0.
      destruct (PyStr.contains_char "?" u); reflexivity.
    + rewrite PyUrlFacts.append_assoc. cbn [append].
      now apply PyUrlFacts.partition_appended.
Qed.

Lemma force_dl1_twice (url : option string) :
  _force_dl1 (_force_dl1 url) = _force_dl1 url.
Proof.
  destruct url as [u|]; [|reflexivity].
  destruct (string_dec u "") as [->|Hu]; [reflexivity|].
  destruct (force_dl1_shape Hu) as [base [X [E [Hp HX]]]].
  rewrite E. now apply force_dl1_on_forced.
Qed.

(** X1: forcing dl=1 twice is forcing it once, on every URL (and on a URL
    that is not set). *)
Theorem force_dl1_idempotent (url : option string) :
  _force_dl1 (_force_dl1 url) = _force_dl1 url.
Proof. apply force_dl1_twice. Qed.

(** X2: in the URL returned for a non-empty URL the first "dl=" is
    followed by 1, and then by the end of the URL or by "&" and a
    non-empty rest: an empty remainder after "&" is dropped. *)
Theorem force_dl1_forces (u : string) :
  u <> "" ->
  exists r base X,
    _force_dl1 (Some u) = Some r /\
    PyUrl.partition "dl=" r = Some (base, ("1" ++ X)%string) /\
    (X = "" \/ exists rest, X = ("&" ++ rest)%string /\ rest <> "").
Proof.
  intros Hu. destruct (force_dl1_shape Hu) as [base [X [E [Hp HX]]]].
  exists (base ++ "dl=1" ++ X)%string, base, X. auto.
Qed.

Lemma force_dl1_forces_witness :
  exists r base X,
    _force_dl1 (Some "https://x/state.csv?dl=0&") = Some r /\
    PyUrl.partition "dl=" r = Some (base, ("1" ++ X)%string) /\
    (X = "" \/ exists rest, X = ("&" ++ rest)%string /\ rest <> "").
Proof.
  apply (@force_dl1_forces "https://x/state.csv?dl=0&"). discriminate.
Defined.

Lemma coerce_bools (l : list cell) :
  Forall is_bool l -> map (fun x => VBool (coerce_flag x)) l = l.
Proof.
  induction 1 as [|v l Hv _ IH]; simpl; [reflexivity|].
  destruct v; try contradiction. now rewrite coerce_flag_bool, IH.
Qed.

(** A frame that has exactly the canonical columns, with boolean flags,
    is returned as it is. *)
Lemma ensure_schema_canonical (n : nat) (a b c f1 f2 f3 f4 : list cell) :
  Forall is_bool f1 -> Forall is_bool f2 -> Forall is_bool f3 -> Forall is_bool f4 ->
  _ensure_schema
    (mkDF n [ (FIRST, a); (LAST, b); (FILE, c);
              (SEEN, f1); (INT, f2); (SAVE, f3); (CONT, f4) ])
  = Ok (mkDF n [ (FIRST, a); (LAST, b); (FILE, c);
                 (SEEN, f1); (INT, f2); (SAVE, f3); (CONT, f4) ]).
Proof.
  intros H1 H2 H3 H4. rewrite ensure_schema_normal_form. cbn [nrows].
  unfold identity_column, flag_column.
  rewrite !get_col_cons. label_eqb. cbv iota.
  rewrite (coerce_bools H1), (coerce_bools H2), (coerce_bools H3), (coerce_bools H4).
  reflexivity.
Qed.

Section Fetch.

Context {W : Type} {RD : Reader W}.

(** X3: fetch_state_df returns a frame exactly when the download and the
    parse both go through; the frame then has the rows of the parsed CSV
    and exactly the seven canonical columns, and normalising it again
    changes nothing.  When the download or the parse raises, so does the
    fetch, with that exception. *)
Theorem fetch_state_df_normalised (url : option string) (w : W) :
  match requests_get (_force_dl1 url) w with
  | (Ok content, w') =>
      match read_csv content with
      | Ok raw =>
          exists df, fetch_state_df url w = (Ok df, w') /\
                     nrows df = nrows raw /\
                     map fst (columns df) = [FIRST; LAST; FILE; SEEN; INT; SAVE; CONT] /\
                     _ensure_schema df = Ok df
      | Raise e => fetch_state_df url w = (Raise e, w')
      end
  | (Raise e, w') => fetch_state_df url w = (Raise e, w')
  end.
Proof.
  unfold fetch_state_df.
  destruct (requests_get (_force_dl1 url) w) as [[content|e] w']; [|reflexivity].
  destruct (read_csv content) as [raw|e]; [|reflexivity].
  cbn [rbind]. eexists. split; [rewrite ensure_schema_normal_form; reflexivity|].
  split; [reflexivity|]. split; [reflexivity|].
  apply ensure_schema_canonical; apply flag_column_bools.
Qed.

(** X4: the fetch does not depend on how the configured link spells its
    dl parameter: a link and its forced form fetch the same. *)
Theorem fetch_ignores_dl (url : option string) (w : W) :
  fetch_state_df (_force_dl1 url) w = fetch_state_df url w.
Proof. unfold fetch_state_df. now rewrite force_dl1_twice. Qed.

End Fetch.

(* ====================================================================== *)
(** * More on the schema normaliser                                        *)
(* ====================================================================== *)

Lemma flag_col_bools (f : Flags -> bool) (t : Table) : Forall is_bool (flag_col f t).
Proof.
  unfold flag_col. apply Forall_forall. intros x Hx.
  apply in_map_iff in Hx as [r [<- _]]. exact I.
Qed.

(** The frame of a canonical table is a fixed point of _ensure_schema. *)
Lemma ensure_schema_df_of_table (t : Table) :
  _ensure_schema (df_of_table t) = Ok (df_of_table t).
Proof. unfold df_of_table. apply ensure_schema_canonical; apply flag_col_bools. Qed.

(** X5: a frame that already has exactly the seven canonical columns in
    their order, with boolean flag cells, comes back from _ensure_schema
    unchanged: the identity cells are not touched (a missing name stays
    missing, a number stays a number). *)
Theorem ensure_schema_fixed_point (n : nat) (a b c f1 f2 f3 f4 : list cell) :
  Forall is_bool f1 -> Forall is_bool f2 -> Forall is_bool f3 -> Forall is_bool f4 ->
  _ensure_schema
    (mkDF n [ (FIRST, a); (LAST, b); (FILE, c);
              (SEEN, f1); (INT, f2); (SAVE, f3); (CONT, f4) ])
  = Ok (mkDF n [ (FIRST, a); (LAST, b); (FILE, c);
                 (SEEN, f1); (INT, f2); (SAVE, f3); (CONT, f4) ]).
Proof. apply ensure_schema_canonical. Qed.

Lemma ensure_schema_fixed_point_witness :
  _ensure_schema
    (mkDF 2 [ (FIRST, [VStr "Jane"; VNaN]); (LAST, [VStr "Doe"; VInt 7]);
              (FILE, [VStr "https://x/cv.pdf"; VStr ""]);
              (SEEN, [VBool true; VBool false]); (INT, [VBool false; VBool false]);
              (SAVE, [VBool false; VBool true]); (CONT, [VBool false; VBool false]) ])
  = Ok (mkDF 2 [ (FIRST, [VStr "Jane"; VNaN]); (LAST, [VStr "Doe"; VInt 7]);
              (FILE, [VStr "https://x/cv.pdf"; VStr ""]);
              (SEEN, [VBool true; VBool false]); (INT, [VBool false; VBool false]);
              (SAVE, [VBool false; VBool true]); (CONT, [VBool false; VBool false]) ]).
Proof.
  apply ensure_schema_fixed_point; repeat constructor.
Defined.

Lemma get_col_length (c : string) (T : DataFrame) (v : list cell) :
  rectangular T -> get_col c T = Ok v -> length v = nrows T.
Proof.
  unfold rectangular, get_col. intros R H.
  destruct (find (fun p => fst p =? c) (columns T)) as [p|] eqn:E; [|discriminate].
  injection H as <-. apply find_some in E as [Hin _].
  rewrite Forall_forall in R. now apply R.
Qed.

Lemma identity_column_length (c : string) (T : DataFrame) :
  rectangular T -> length (identity_column c T) = nrows T.
Proof.
  intros R. unfold identity_column. destruct (get_col c T) as [v|e] eqn:E.
  - now apply (get_col_length c R).
  - apply repeat_length.
Qed.

Lemma flag_column_length (c : string) (T : DataFrame) :
  rectangular T -> length (flag_column c T) = nrows T.
Proof.
  intros R. unfold flag_column. destruct (get_col c T) as [v|e] eqn:E.
  - rewrite length_map. now apply (get_col_length c R).
  - apply repeat_length.
Qed.

(** X6: on a frame whose columns all have the length of its index,
    _ensure_schema returns a frame with that same property and that same
    number of rows: every default column is filled along the whole index
    and no coercion changes a length. *)
Theorem ensure_schema_rectangular (T : DataFrame) :
  rectangular T ->
  exists out, _ensure_schema T = Ok out /\ nrows out = nrows T /\ rectangular out.
Proof.
  intros R. eexists. split; [apply ensure_schema_normal_form|].
  split; [reflexivity|]. unfold rectangular. cbn [columns nrows].
  repeat constructor; cbn [snd];
    first [now apply identity_column_length | now apply flag_column_length].
Qed.

Lemma ensure_schema_rectangular_witness :
  exists out,
    _ensure_schema (mkDF 2 [("seen", [VStr "yes"; VNaN]); ("note", [VNaN; VInt 3])])
    = Ok out /\ nrows out = 2%nat /\ rectangular out.
Proof.
  apply (@ensure_schema_rectangular
           (mkDF 2 [("seen", [VStr "yes"; VNaN]); ("note", [VNaN; VInt 3])])).
  repeat constructor.
Defined.

(** X7: a flag cell is read without regard to letter case and to white
    space around it: two texts with the same lower-cased form, one of them
    padded with white space, are coerced to the same boolean. *)
Theorem coerce_flag_modulo_case_ws (a s b s' : string) :
  PyStr.blank a = true -> PyStr.blank b = true ->
  PyStr.lower s = PyStr.lower s' ->
  coerce_flag (VStr (a ++ s ++ b)) = coerce_flag (VStr s').
Proof.
  intros Ha Hb Hl. unfold coerce_flag. cbn [astype_str].
  rewrite PyStrFacts.strip_pad by assumption.
  rewrite <- !PyStrFacts.strip_lower, Hl. reflexivity.
Qed.

Lemma coerce_flag_modulo_case_ws_witness :
  coerce_flag (VStr "  Yes ") = coerce_flag (VStr "yEs") /\
  coerce_flag (VStr "  Yes ") = true.
Proof.
  split; [|reflexivity].
  apply (@coerce_flag_modulo_case_ws "  " "Yes" " " "yEs"); reflexivity.
Defined.

(* ====================================================================== *)
(** * More on row identity                                                 *)
(* ====================================================================== *)

Lemma split_at_bars (a a' x x' : string) :
  PyStr.contains_char "|" a = false -> PyStr.contains_char "|" a' = false ->
  (a ++ "||" ++ x = a' ++ "||" ++ x')%string -> a = a' /\ x = x'.
Proof.
  revert a'. induction a as [|c a IH]; intros [|c' a'] Ha Ha' E; cbn in E.
  - injection E as ->. auto.
  - injection E as <- _. cbn in Ha'. discriminate.
  - injection E as -> _. cbn in Ha. discriminate.
  - injection E as -> E. cbn [PyStr.contains_char] in Ha, Ha'.
    apply orb_false_iff in Ha as [_ Ha]. apply orb_false_iff in Ha' as [_ Ha'].
    destruct (IH a' Ha Ha' E) as [-> ->]. auto.
Qed.

(** X8: for records whose names hold no "|", the key determines the three
    normalised identity parts: equal keys mean equal lower-cased stripped
    first names, equal lower-cased stripped last names and equal stripped
    file URLs (the URL may hold any character). *)
Theorem key_unambiguous (r1 r2 : Row) :
  PyStr.contains_char "|" (name_part (first_name r1)) = false ->
  PyStr.contains_char "|" (name_part (last_name r1)) = false ->
  PyStr.contains_char "|" (name_part (first_name r2)) = false ->
  PyStr.contains_char "|" (name_part (last_name r2)) = false ->
  _key r1 = _key r2 ->
  name_part (first_name r1) = name_part (first_name r2) /\
  name_part (last_name r1) = name_part (last_name r2) /\
  file_part (file_name r1) = file_part (file_name r2).
Proof.
  unfold _key. intros F1 L1 F2 L2 E.
  destruct (@split_at_bars _ _ _ _ F1 F2 E) as [Ef E'].
  destruct (@split_at_bars _ _ _ _ L1 L2 E') as [El Ex]. auto.
Qed.

Lemma key_unambiguous_witness :
  name_part (first_name Scripted.jane) =
  name_part (first_name (Scripted.mark_seen Scripted.jane)) /\
  name_part (last_name Scripted.jane) =
  name_part (last_name (Scripted.mark_seen Scripted.jane)) /\
  file_part (file_name Scripted.jane) =
  file_part (file_name (Scripted.mark_seen Scripted.jane)).
Proof.
  apply (@key_unambiguous Scripted.jane (Scripted.mark_seen Scripted.jane));
    reflexivity.
Defined.

(* ====================================================================== *)
(** * Invariants of the effectful code                                     *)
(* ====================================================================== *)

Section Invariants.

Context {W : Type} {SV : Services W}.
Variable secrets : Secrets.
Variable R : State W -> State W -> Prop.
Variable allowed : Event -> Prop.

Hypothesis R_refl : forall s, R s s.
Hypothesis R_trans : forall a b c, R a b -> R b c -> R a c.
Hypothesis R_call : forall e s w, allowed e -> R s (set_world w (log_event e s)).
Hypothesis R_dbx : forall c s, R s (set_DBX c s).

Lemma inv_ret {A : Type} (a : A) : post R (ret a).
Proof. intros s r s' E. injection E as _ <-. apply R_refl. Qed.

Lemma inv_raise {A : Type} (e : exn) : post R (raise (A := A) e).
Proof. intros s r s' E. injection E as _ <-. apply R_refl. Qed.

Lemma inv_get : post R (get (W := W)).
Proof. intros s r s' E. injection E as _ <-. apply R_refl. Qed.

Lemma inv_modify (f : State W -> State W) :
  (forall s, R s (f s)) -> post R (modify f).
Proof. intros H s r s' E. injection E as _ <-. apply H. Qed.

Lemma inv_bind {A B : Type} (m : M W A) (k : A -> M W B) :
  post R m -> (forall a, post R (k a)) -> post R (bind m k).
Proof.
  intros Hm Hk s r s' E. unfold bind in E.
  destruct (m s) as [[a|e] s1] eqn:E1.
  - eapply R_trans; [eapply Hm, E1 | eapply Hk, E].
  - injection E as _ <-. eapply Hm, E1.
Qed.

Lemma inv_try {A : Type} (m : M W A) (h : exn -> M W A) :
  post R m -> (forall e, post R (h e)) -> post R (try_with m h).
Proof.
  intros Hm Hh s r s' E. unfold try_with in E.
  destruct (m s) as [[a|e] s1] eqn:E1.
  - injection E as _ <-. eapply Hm, E1.
  - eapply R_trans; [eapply Hm, E1 | eapply Hh, E].
Qed.

Lemma inv_call {A : Type} (e : Event) (f : W -> result A * W) :
  allowed e -> post R (call e f).
Proof.
  intros He s r s' E. unfold call in E.
  destruct (f (world (log_event e s))) as [r0 w'] eqn:Ef.
  injection E as _ <-. now apply R_call.
Qed.

Lemma inv_deref {A : Type} (attr : string) (o : option A) :
  post R (deref (W := W) attr o).
Proof. destruct o; [apply inv_ret | apply inv_raise]. Qed.

Lemma inv_access_token :
  allowed EvToken -> post R (_access_token_from_refresh secrets).
Proof.
  intros Ht. unfold _access_token_from_refresh.
  destruct (DROPBOX_APP_KEY secrets), (DROPBOX_APP_SECRET secrets),
    (DROPBOX_REFRESH_TOKEN secrets); try apply inv_ret.
  apply inv_bind; [now apply inv_call | intros; apply inv_ret].
Qed.

Lemma inv_build :
  (forall c s, R s (set_cached_client c s)) ->
  post R (_access_token_from_refresh secrets) ->
  post R (_build_dbx_client secrets).
Proof.
  intros Hc Ha. unfold _build_dbx_client.
  apply inv_bind; [apply inv_get|]. intros s.
  destruct (cached_client s); [apply inv_ret|].
  apply inv_bind.
  - destruct (truthy (DROPBOX_ACCESS_TOKEN secrets)); [apply inv_ret | exact Ha].
  - intros [t|]; [|apply inv_raise].
    destruct (negb (t =? "")); [|apply inv_raise].
    apply inv_bind; [now apply inv_modify | intros; apply inv_ret].
Qed.

Hypothesis R_access : post R (_access_token_from_refresh secrets).
Hypothesis R_build : post R (_build_dbx_client secrets).

Lemma inv_refresh : post R (_refresh_dbx_client secrets).
Proof.
  unfold _refresh_dbx_client. apply inv_bind; [exact R_access|].
  intros [t|]; [|exact R_build].
  destruct (negb (t =? "")); [apply inv_ret | exact R_build].
Qed.

Lemma inv_boot : post R (boot_dbx secrets).
Proof.
  unfold boot_dbx. apply inv_bind; [now apply inv_modify|]. intros _.
  apply inv_try; [|intros; apply inv_ret].
  apply inv_bind; [exact R_build|]. intros c. now apply inv_modify.
Qed.

Hypothesis A_folder : forall d q,
  STATE_DBX_PATH secrets = Some q ->
  ((PyStr.dirname (PyStr.rstrip_char "/" q) =? "")
   || (PyStr.dirname (PyStr.rstrip_char "/" q) =? "/")) = false ->
  allowed (EvCreateFolder d (PyStr.dirname (PyStr.rstrip_char "/" q))).
Hypothesis A_upload : forall d x p,
  STATE_DBX_PATH secrets = Some p -> allowed (EvUpload d x p).

Lemma bind_ret_l {A B : Type} (a : A) (k : A -> M W B) : bind (ret a) k = k a.
Proof. reflexivity. Qed.

Lemma inv_ensure_folder_tree (dbx : option Dropbox) :
  post R (_ensure_folder_tree dbx (STATE_DBX_PATH secrets)).
Proof.
  unfold _ensure_folder_tree.
  destruct (STATE_DBX_PATH secrets) as [q|] eqn:Eq; cbn [deref].
  - rewrite bind_ret_l.
    destruct ((PyStr.dirname (PyStr.rstrip_char "/" q) =? "")
              || (PyStr.dirname (PyStr.rstrip_char "/" q) =? "/")) eqn:Ep;
      [apply inv_ret|].
    apply inv_try.
    + apply inv_bind; [apply inv_deref|]. intros d.
      apply inv_call. now apply A_folder.
    + intros [m|m|m]; [apply inv_raise | apply inv_ret | apply inv_raise].
  - intros s r s' E. unfold bind, raise in E. injection E as _ <-. apply R_refl.
Qed.

Lemma inv_upload (x : string) : post R (upload x (STATE_DBX_PATH secrets)).
Proof.
  unfold upload. apply inv_bind; [apply inv_get|]. intros s.
  apply inv_bind; [apply inv_deref|]. intros d.
  destruct (STATE_DBX_PATH secrets) as [p|] eqn:Eq; [|apply inv_raise].
  apply inv_call. now apply A_upload.
Qed.

Lemma inv_attempt (x : string) : post R (attempt x (STATE_DBX_PATH secrets)).
Proof.
  unfold attempt. apply inv_bind; [apply inv_get|]. intros s.
  apply inv_bind; [apply inv_ensure_folder_tree|]. intros _.
  apply inv_bind; [apply inv_upload|]. intros _. apply inv_ret.
Qed.

Lemma inv_upload_with_auto_refresh (x : string) :
  post R (_upload_with_auto_refresh secrets x (STATE_DBX_PATH secrets)).
Proof.
  unfold _upload_with_auto_refresh. apply inv_try; [apply inv_attempt|].
  intros [m|m|m]; try apply inv_ret.
  apply inv_try; [|intros; apply inv_ret].
  apply inv_bind; [apply inv_refresh|]. intros c.
  apply inv_bind; [now apply inv_modify|]. intros _. apply inv_attempt.
Qed.

Lemma inv_write_state_df (full_df : DataFrame) :
  post R (write_state_df secrets full_df).
Proof.
  intros s r s' E. rewrite write_state_df_unfold in E.
  destruct (DBX s); [|injection E as _ <-; apply R_refl].
  destruct (payload full_df); [|injection E as _ <-; apply R_refl].
  eapply inv_upload_with_auto_refresh, E.
Qed.

Hypothesis R_df : forall t s, R s (set_df t s).
Hypothesis R_ts : forall q s, R s (set_last_save_ts q s).
Hypothesis R_snap : forall k s, R s (set_snapshot_all k s).

Lemma inv_autosave_block (autosave : bool) (edited : Table) (now : Q) :
  post R (autosave_block secrets autosave edited now).
Proof.
  unfold autosave_block. apply inv_bind; [apply inv_get|]. intros s.
  apply inv_bind.
  - destruct (autosave && _); [|apply inv_ret].
    destruct (Qle_bool _ _); [|apply inv_ret].
    apply inv_bind; [now apply inv_modify|]. intros _.
    apply inv_bind; [apply inv_write_state_df|]. intros r.
    apply inv_bind; [now apply inv_modify|]. intros _.
    destruct (fst r).
    + apply inv_bind; [now apply inv_modify | intros; apply inv_ret].
    + apply inv_bind; [now apply inv_modify | intros; apply inv_ret].
  - intros o. apply inv_bind; [apply inv_get|]. intros s1.
    destruct (snapshot_all s1); [apply inv_ret|].
    apply inv_bind; [now apply inv_modify | intros; apply inv_ret].
Qed.

Lemma inv_script_run (autosave : bool) (edited : Table) (now : Q) :
  post R (script_run secrets autosave edited now).
Proof.
  unfold script_run. apply inv_bind; [apply inv_boot|]. intros _.
  destruct edited; [apply inv_ret | apply inv_autosave_block].
Qed.

End Invariants.

Section Emits.

Context {W : Type}.
Variable P : Event -> Prop.

Lemma emits_refl (s : State W) : emits P s s.
Proof. exists []. now rewrite app_nil_r. Qed.

Lemma emits_trans (a b c : State W) : emits P a b -> emits P b c -> emits P a c.
Proof.
  intros [e1 [T1 F1]] [e2 [T2 F2]]. exists (e1 ++ e2).
  rewrite T2, T1, app_assoc. split; [reflexivity | now apply Forall_app].
Qed.

Lemma emits_call (e : Event) (s : State W) (w : W) :
  P e -> emits P s (set_world w (log_event e s)).
Proof. intros He. exists [e]. split; [reflexivity | now repeat constructor]. Qed.

Lemma emits_same_trace (s s' : State W) : trace s' = trace s -> emits P s s'.
Proof. intros E. exists []. now rewrite app_nil_r. Qed.

End Emits.

(** X9: every call a script run makes on the outside world concerns the
    configured write path: besides calls of the token endpoint there are
    only uploads to STATE_DBX_PATH itself and creations of its parent
    folder, which is never the empty path nor the root. *)
Theorem script_run_targets_path {W : Type} {SV : Services W} (secrets : Secrets)
        (autosave : bool) (edited : Table) (now : Q) (s s' : State W)
        (r : result Outcome) :
  script_run secrets autosave edited now s = (r, s') ->
  emits (targets (STATE_DBX_PATH secrets)) s s'.
Proof.
  intros E.
  set (P := targets (STATE_DBX_PATH secrets)).
  assert (Ha : post (emits P) (_access_token_from_refresh secrets)).
  { apply (@inv_access_token _ _ secrets (emits P) P).
    - apply emits_refl.
    - apply emits_trans.
    - intros. now apply emits_call.
    - exact I. }
  refine (@inv_script_run _ _ secrets (emits P) P _ _ _ _ Ha _ _ _ _ _ _
            autosave edited now s r s' E).
  - apply emits_refl.
  - apply emits_trans.
  - intros. now apply emits_call.
  - intros. now apply emits_same_trace.
  - apply inv_build; [apply emits_refl | apply emits_trans | | exact Ha].
    intros. now apply emits_same_trace.
  - intros d q Hq Hp. unfold P. cbn. exists q.
    apply orb_false_iff in Hp as [H1 H2].
    apply String.eqb_neq in H1. apply String.eqb_neq in H2. auto.
  - intros d x p Hp. exact Hp.
  - intros. now apply emits_same_trace.
  - intros. now apply emits_same_trace.
  - intros. now apply emits_same_trace.
Qed.

Lemma boot_with_cache {W : Type} {SV : Services W} (secrets : Secrets)
      (s : State W) (c : Dropbox) :
  cached_client s = Some c ->
  boot_dbx secrets s = (Ok tt, set_DBX (Some c) s).
Proof.
  intros H. unfold boot_dbx, _build_dbx_client.
  unfold bind, modify, try_with, get, ret.
  cbv beta. cbn [cached_client set_DBX]. rewrite H. reflexivity.
Qed.

(** X10: a client held in the st.cache_resource slot is still there after
    a run, whatever the run did: a client obtained by a refresh serves the
    retry of that run only, and the next run boots again with the cached
    client, without any call. *)
Theorem refreshed_client_not_kept {W : Type} {SV : Services W} (secrets : Secrets)
        (autosave : bool) (edited : Table) (now : Q) (s s' : State W)
        (r : result Outcome) (c0 : Dropbox) :
  cached_client s = Some c0 ->
  script_run secrets autosave edited now s = (r, s') ->
  cached_client s' = Some c0 /\
  boot_dbx secrets s' = (Ok tt, set_DBX (Some c0) s').
Proof.
  intros Hc E.
  assert (K : cached_client s' = Some c0).
  { assert (Ha : post (cache_kept c0) (_access_token_from_refresh secrets)).
    { apply (@inv_access_token _ _ secrets (cache_kept c0) (fun _ => True));
        try (intros; exact I).
      - intros s0 H. exact H.
      - intros a b c Hab Hbc H. auto.
      - intros e s0 w _ H. exact H. }
    refine (@inv_script_run _ _ secrets (cache_kept c0) (fun _ => True)
              _ _ _ _ Ha _ _ _ _ _ _ autosave edited now s r s' E Hc);
      try (intros; exact I).
    - intros s0 H. exact H.
    - intros a b c Hab Hbc H. auto.
    - intros e s0 w _ H. exact H.
    - intros c s0 H. exact H.
    - intros s0 r0 s1 E0 H. unfold _build_dbx_client, bind, get in E0.
      rewrite H in E0. injection E0 as _ <-. exact H.
    - intros t s0 H. exact H.
    - intros q s0 H. exact H.
    - intros k s0 H. exact H. }
  split; [exact K | now apply boot_with_cache].
Qed.

Lemma refreshed_client_not_kept_witness :
  let s := Scripted.running [None; Some (AuthError "expired_access_token")]
             [Scripted.jane] [Scripted.jane] in
  let run := script_run Scripted.refresh_flow true
               [Scripted.mark_seen Scripted.jane] 1000 s in
  fst run = Ok (Committed 1) /\
  DBX (snd run) = Some (mkDropbox "fresh-token") /\
  cached_client (snd run) = Some Scripted.old_client /\
  DBX (snd (boot_dbx Scripted.refresh_flow (snd run))) = Some Scripted.old_client.
Proof.
  cbv zeta. split; [vm_compute; reflexivity|]. split; [vm_compute; reflexivity|].
  destruct (@refreshed_client_not_kept _ _ Scripted.refresh_flow true
              [Scripted.mark_seen Scripted.jane] 1000
              (Scripted.running [None; Some (AuthError "expired_access_token")]
                 [Scripted.jane] [Scripted.jane])
              (snd (script_run Scripted.refresh_flow true
                      [Scripted.mark_seen Scripted.jane] 1000
                      (Scripted.running [None; Some (AuthError "expired_access_token")]
                         [Scripted.jane] [Scripted.jane])))
              (Ok (Committed 1)) Scripted.old_client) as [H1 H2].
  - reflexivity.
  - vm_compute. reflexivity.
  - split; [exact H1|]. rewrite H2. reflexivity.
Defined.



Lemma access_token_without_trio {W : Type} {SV : Services W} (secrets : Secrets) :
  DROPBOX_APP_KEY secrets = None \/ DROPBOX_APP_SECRET secrets = None \/
  DROPBOX_REFRESH_TOKEN secrets = None ->
  _access_token_from_refresh (W := W) secrets = ret None.
Proof.
  unfold _access_token_from_refresh.
  destruct (DROPBOX_APP_KEY secrets), (DROPBOX_APP_SECRET secrets),
    (DROPBOX_REFRESH_TOKEN secrets); intros [H|[H|H]];
    try discriminate; reflexivity.
Qed.



(** X12: with no credential at all (no usable static token, no complete
    refresh trio, nothing cached) a run makes no call on the outside
    world; when a save is due it ends as a failed write with the error
    "Dropbox not configured", and the table of the session is left as it
    was. *)
Theorem no_credentials_no_call {W : Type} {SV : Services W} (secrets : Secrets)
        (autosave : bool) (edited : Table) (now : Q) (s s' : State W)
        (r : result Outcome) :
  truthy (DROPBOX_ACCESS_TOKEN secrets) = false ->
  DROPBOX_APP_KEY secrets = None \/ DROPBOX_APP_SECRET secrets = None \/
  DROPBOX_REFRESH_TOKEN secrets = None ->
  cached_client s = None ->
  script_run secrets autosave edited now s = (r, s') ->
  silent s s' /\ DBX s' = None /\ df s' = df s /\
  exists o, r = Ok o /\
    (wrote o = true -> o = RolledBack (Some "Dropbox not configured")).
Proof.
  intros Htok Htrio Hc E.
  assert (B : boot_dbx secrets s = (Ok tt, set_DBX None s)).
  { unfold boot_dbx, _build_dbx_client.
    rewrite (access_token_without_trio secrets Htrio).
    unfold bind, modify, try_with, get, ret, raise. cbv beta.
    cbn [cached_client set_DBX]. rewrite Hc, Htok. reflexivity. }
  unfold script_run, bind in E. rewrite B in E.
  destruct edited as [|r0 t0].
  { injection E as <- <-. repeat split. exists NoCandidates.
    split; [reflexivity | discriminate]. }
  rewrite autosave_block_unfold in E. cbv zeta in E.
  destruct (autosave && _).
  2:{ injection E as <- <-. unfold init_snapshot.
      destruct (snapshot_all (set_DBX None s)); repeat split;
        exists NoWrite; (split; [reflexivity | discriminate]). }
  destruct (due (set_DBX None s) now).
  2:{ injection E as <- <-. unfold init_snapshot.
      destruct (snapshot_all (set_DBX None s)); repeat split;
        exists Debounced; (split; [reflexivity | discriminate]). }
  rewrite write_state_df_unfold in E. cbn [DBX set_df set_DBX] in E.
  injection E as <- <-. unfold init_snapshot.
  cbn [snapshot_all set_df set_last_save_ts set_DBX].
  destruct (snapshot_all s); repeat split; eexists;
    (split; [reflexivity | reflexivity]).
Qed.

Lemma no_credentials_no_call_witness :
  let none := mkSecrets None None None None (Some "/state.csv") in
  let s := Scripted.fresh_session [] [Scripted.jane] in
  let run := script_run none true [Scripted.mark_seen Scripted.jane] 1000 s in
  fst run = Ok (RolledBack (Some "Dropbox not configured")) /\
  trace (snd run) = [] /\ df (snd run) = [Scripted.jane].
Proof.
  cbv zeta. split; [vm_compute; reflexivity|].
  destruct (@no_credentials_no_call _ _
              (mkSecrets None None None None (Some "/state.csv")) true
              [Scripted.mark_seen Scripted.jane] 1000
              (Scripted.fresh_session [] [Scripted.jane])
              (snd (script_run (mkSecrets None None None None (Some "/state.csv"))
                      true [Scripted.mark_seen Scripted.jane] 1000
                      (Scripted.fresh_session [] [Scripted.jane])))
              (fst (script_run (mkSecrets None None None None (Some "/state.csv"))
                      true [Scripted.mark_seen Scripted.jane] 1000
                      (Scripted.fresh_session [] [Scripted.jane]))))
    as [[Ht _] [_ [Hd _]]].
  - reflexivity.
  - left. reflexivity.
  - reflexivity.
  - apply surjective_pairing.
  - split; [exact Ht | exact Hd].
Defined.

(* ====================================================================== *)
(** * More on the write path                                               *)
(* ====================================================================== *)

Section WritePathMore.

Context {W : Type} {SV : Services W}.
Variable secrets : Secrets.

(** An attempt that returns has made its upload last, after at most a
    folder creation. *)
Lemma attempt_ok_trace (x : string) (path : option string) (s s1 : State W)
      (a : bool * option string) :
  attempt x path s = (Ok a, s1) ->
  exists evs d p, path = Some p /\
    trace s1 = trace s ++ evs ++ [EvUpload d x p] /\ uploads evs = 0%nat.
Proof.
  unfold attempt, bind at 1, get at 1. unfold bind at 1.
  destruct (_ensure_folder_tree (DBX s) path s) as [[[]|e] s0] eqn:Ef;
    [|discriminate].
  pose proof (@post_ensure_folder_tree _ _ x _ _ _ _ _ Ef) as [_ [evs [T [_ U]]]].
  unfold bind at 1.
  destruct (upload x path s0) as [[[]|e] s2] eqn:Eu; [|discriminate].
  intros E. injection E as _ <-.
  unfold upload, bind, get, deref, ret, raise in Eu.
  destruct (DBX s0) as [d|]; [|discriminate].
  destruct path as [p|]; [|discriminate].
  unfold call in Eu.
  destruct (files_upload d x p (world (log_event (EvUpload d x p) s0))) as [r w'].
  injection Eu as _ <-.
  exists evs, d, p. split; [reflexivity|]. split; [|lia].
  cbn [trace set_world log_event]. rewrite T, app_assoc. reflexivity.
Qed.

(** X13: write_state_df reports success only after an upload call has
    returned: the last call of a successful write is the upload of the
    serialised table to the configured path. *)
Theorem success_means_uploaded (full_df : DataFrame) (s s' : State W) :
  write_state_df secrets full_df s = (Ok (true, None), s') ->
  exists bytes evs d p,
    payload full_df = Ok bytes /\ STATE_DBX_PATH secrets = Some p /\
    trace s' = trace s ++ evs ++ [EvUpload d bytes p].
Proof.
  intros E. rewrite write_state_df_unfold in E.
  destruct (DBX s) as [d0|]; [|discriminate].
  destruct (payload full_df) as [bytes|e]; [|discriminate].
  exists bytes.
  pose proof (upload_with_auto_refresh_cases secrets bytes (STATE_DBX_PATH secrets) s) as H.
  destruct (attempt bytes (STATE_DBX_PATH secrets) s) as [[a|[m|m|m]] s1] eqn:E1;
    try (rewrite H in E; discriminate).
  - rewrite H in E. injection E as <-.
    apply attempt_ok_trace in E1 as [evs [d [p [Hp [T _]]]]].
    exists evs, d, p. repeat split; assumption.
  - pose proof (@post_attempt _ _ bytes _ _ _ _ E1) as [_ [e1 [T1 _]]].
    destruct (_refresh_dbx_client secrets s1) as [[c|e2] s2] eqn:E2;
      [|rewrite H in E; discriminate].
    pose proof (@post_refresh _ _ secrets bytes _ _ _ E2) as [_ [e2 [T2 _]]].
    destruct (attempt bytes (STATE_DBX_PATH secrets) (set_DBX (Some c) s2))
      as [[a|e3] s3] eqn:E3; [|rewrite H in E; discriminate].
    rewrite H in E. injection E as <-.
    apply attempt_ok_trace in E3 as [evs [d [p [Hp [T3 _]]]]].
    exists (e1 ++ e2 ++ evs), d, p. split; [reflexivity|]. split; [exact Hp|].
    rewrite T3. cbn [trace set_DBX]. rewrite T2, T1, <- !app_assoc. reflexivity.
Qed.

(** X14: a write whose first upload call raises an AuthError and that
    ends in success has made exactly two upload calls. *)
Theorem auth_retry_two_uploads (full_df : DataFrame) (s s1 s' : State W)
        (d : Dropbox) (bytes m : string) :
  DBX s = Some d ->
  payload full_df = Ok bytes ->
  attempt bytes (STATE_DBX_PATH secrets) s = (Raise (AuthError m), s1) ->
  uploads (trace s1) = S (uploads (trace s)) ->
  write_state_df secrets full_df s = (Ok (true, None), s') ->
  uploads (trace s') = (uploads (trace s) + 2)%nat.
Proof.
  intros Hd Hp E1 U1 E. rewrite write_state_df_unfold, Hd, Hp in E.
  pose proof (upload_with_auto_refresh_cases secrets bytes (STATE_DBX_PATH secrets) s) as H.
  rewrite E1 in H.
  destruct (_refresh_dbx_client secrets s1) as [[c|e2] s2] eqn:E2;
    [|rewrite H in E; discriminate].
  pose proof (@post_refresh _ _ secrets bytes _ _ _ E2) as H2.
  apply steps_no_upload in H2.
  destruct (attempt bytes (STATE_DBX_PATH secrets) (set_DBX (Some c) s2))
    as [[a|e3] s3] eqn:E3; [|rewrite H in E; discriminate].
  rewrite H in E. injection E as <-.
  apply attempt_ok_trace in E3 as [evs [d' [p [_ [T3 U3]]]]].
  rewrite T3. cbn [trace set_DBX]. rewrite !uploads_app, U3, H2, U1.
  unfold uploads at 2. simpl. lia.
Qed.

(** X15: _ensure_folder_tree never raises an ApiError: what the folder
    creation answers with an ApiError (the folder exists already) is
    ignored, and only other errors reach the caller. *)
Theorem ensure_folder_tree_swallows_api_error (dbx : option Dropbox)
        (path : option string) (s : State W) (m : string) :
  fst (_ensure_folder_tree dbx path s) <> Raise (ApiError m).
Proof.
  unfold _ensure_folder_tree.
  destruct path as [q|]; cbn [deref]; [|discriminate].
  rewrite bind_ret_l. destruct (_ || _); [discriminate|].
  unfold try_with, bind, deref, ret, raise, call.
  destruct dbx as [d0|]; [|discriminate].
  destruct (files_create_folder_v2 _ _ _) as [[[]|[m'|m'|m']] w']; discriminate.
Qed.

End WritePathMore.

Lemma rstrip_char_absent (x : ascii) (p : string) :
  PyStr.contains_char x p = false -> PyStr.rstrip_char x p = p.
Proof.
  induction p as [|c p IH]; simpl; [reflexivity|]. intros H.
  apply orb_false_iff in H as [Hc Hp]. rewrite (IH Hp).
  destruct p; [now rewrite Hc | reflexivity].
Qed.

Lemma upto_last_absent (x : ascii) (p : string) :
  PyStr.contains_char x p = false -> PyStr.upto_last x p = "".
Proof.
  destruct p as [|c p]; simpl; [reflexivity|]. intros H.
  apply orb_false_iff in H as [Hc Hp]. now rewrite Hp, Hc.
Qed.

Lemma no_parent_folder (p : string) :
  PyStr.contains_char "/" p = false \/
  (exists name, p = String "/" name /\ PyStr.contains_char "/" name = false) ->
  (PyStr.dirname (PyStr.rstrip_char "/" p) =? "")
  || (PyStr.dirname (PyStr.rstrip_char "/" p) =? "/") = true.
Proof.
  intros [H|[name [-> H]]].
  - rewrite (rstrip_char_absent _ _ H). unfold PyStr.dirname.
    rewrite (upto_last_absent _ _ H). reflexivity.
  - cbn [PyStr.rstrip_char]. rewrite (rstrip_char_absent _ _ H).
    destruct name as [|c name]; [reflexivity|].
    unfold PyStr.dirname. cbn [PyStr.upto_last]. rewrite H. reflexivity.
Qed.

(** X16: for a write path without a directory part, a bare file name or
    a file directly under the root, _ensure_folder_tree creates nothing:
    it returns without any call, with or without a client. *)
Theorem ensure_folder_tree_top_level {W : Type} {SV : Services W}
        (dbx : option Dropbox) (p : string) (s : State W) :
  PyStr.contains_char "/" p = false \/
  (exists name, p = String "/" name /\ PyStr.contains_char "/" name = false) ->
  _ensure_folder_tree dbx (Some p) s = (Ok tt, s).
Proof.
  intros H. unfold _ensure_folder_tree. cbn [deref]. rewrite bind_ret_l.
  now rewrite (no_parent_folder H).
Qed.

Lemma ensure_folder_tree_top_level_witness :
  _ensure_folder_tree (W := Scripted.World) None (Some "/state.csv")
    (Scripted.fresh_session [Some (PyError "down")] []) =
  (Ok tt, Scripted.fresh_session [Some (PyError "down")] []).
Proof.
  apply (@ensure_folder_tree_top_level _ _ None "/state.csv").
  right. exists "state.csv". split; reflexivity.
Defined.

Lemma success_means_uploaded_witness :
  let s := Scripted.running [] [Scripted.jane] [Scripted.jane] in
  exists bytes evs d p,
    payload (SV := Scripted.services) (df_of_table [Scripted.jane]) = Ok bytes /\
    STATE_DBX_PATH Scripted.static_token = Some p /\
    trace (snd (write_state_df Scripted.static_token (df_of_table [Scripted.jane]) s))
    = trace s ++ evs ++ [EvUpload d bytes p].
Proof.
  cbv zeta.
  apply (@success_means_uploaded _ _ Scripted.static_token
           (df_of_table [Scripted.jane])
           (Scripted.running [] [Scripted.jane] [Scripted.jane])).
  vm_compute. reflexivity.
Defined.

Lemma auth_retry_two_uploads_witness :
  let s := Scripted.running [None; Some (AuthError "expired_access_token")]
             [Scripted.jane] [Scripted.jane] in
  uploads (trace (snd (write_state_df Scripted.refresh_flow
                         (df_of_table [Scripted.jane]) s))) = 2%nat.
Proof.
  cbv zeta.
  refine (@auth_retry_two_uploads _ _ Scripted.refresh_flow
            (df_of_table [Scripted.jane])
            (Scripted.running [None; Some (AuthError "expired_access_token")]
               [Scripted.jane] [Scripted.jane])
            (snd (attempt (Scripted.saved_csv [Scripted.jane])
                    (STATE_DBX_PATH Scripted.refresh_flow)
                    (Scripted.running [None; Some (AuthError "expired_access_token")]
                       [Scripted.jane] [Scripted.jane])))
            _ Scripted.old_client (Scripted.saved_csv [Scripted.jane])
            "expired_access_token" _ _ _ _ _).
  - reflexivity.
  - reflexivity.
  - vm_compute. reflexivity.
  - vm_compute. reflexivity.
  - vm_compute. reflexivity.
Defined.

(* ====================================================================== *)
(** * More on the sync controller                                          *)
(* ====================================================================== *)

Section ControllerMore.

Context {W : Type} {SV : Services W}.
Variable secrets : Secrets.

(** X17: a run of the script never raises, whatever the network and the
    remote store answer, and makes at most two uploads. *)
Theorem script_run_returns (autosave : bool) (edited : Table) (now : Q)
        (s : State W) :
  exists o s', script_run secrets autosave edited now s = (Ok o, s') /\
               (uploads (trace s') <= uploads (trace s) + 2)%nat.
Proof.
  destruct (script_run_spec secrets autosave edited now s) as [o [s' [E R]]].
  exists o, s'. split; [exact E|].
  inversion R as [s0 Hv Hb|s0 Hv Hc Hb|s0 Hv Ha Hc Hd Hb
                  |s0 s1 bytes Hne Ha Hc Hd Hp Hb Hw
                  |s0 s1 bytes err Hne Ha Hc Hd Hp Hb Hw Ew]; subst.
  - rewrite (steps_no_upload Hb). lia.
  - rewrite trace_init_snapshot, (steps_no_upload Hb). lia.
  - rewrite (steps_no_upload Hb). lia.
  - destruct Hw as [_ [e2 [T2 [_ U2]]]]. apply steps_no_upload in Hb.
    cbn [trace set_snapshot_all set_last_save_ts set_df] in *.
    rewrite T2, uploads_app, Hb. lia.
  - destruct Hw as [_ [e2 [T2 [_ U2]]]]. apply steps_no_upload in Hb.
    cbn [trace set_last_save_ts set_df] in *.
    rewrite T2, uploads_app, Hb. lia.
Qed.

(** X18: the first draw of a session (no snapshot yet) never writes, also
    when the view already differs from the table: it takes the view as the
    baseline snapshot and leaves table and save time as they are. *)
Theorem first_draw_sets_baseline (autosave : bool) (edited : Table) (now : Q)
        (s : State W) :
  snapshot_all s = None -> edited <> [] ->
  exists s', script_run secrets autosave edited now s = (Ok NoWrite, s') /\
    snapshot_all s' = Some (with_key edited) /\
    df s' = df s /\ last_save_ts s' = last_save_ts s /\
    uploads (trace s') = uploads (trace s).
Proof.
  intros Hs Hne.
  assert (Hch : changes s edited = []) by (unfold changes; now rewrite Hs).
  destruct (script_run_spec secrets autosave edited now s) as [o [s' [E R]]].
  inversion R as [s0 Hv Hb|s0 Hv Hc Hb|s0 Hv Ha Hc Hd Hb
                  |s0 s1 bytes Hne' Ha Hc Hd Hp Hb Hw
                  |s0 s1 bytes err Hne' Ha Hc Hd Hp Hb Hw Ew]; subst;
    try congruence.
  eexists. split; [exact E|].
  pose proof (steps_no_upload Hb) as U. destruct Hb as [[K1 [K2 K3]] _].
  unfold init_snapshot. rewrite K3, Hs.
  cbn [snapshot_all df last_save_ts trace set_snapshot_all]. auto.
Qed.

(** X19: a run whose view is empty stops at once: no write, and nothing
    of the session changes; in particular a session without a snapshot
    stays without one. *)
Theorem empty_view_stops (autosave : bool) (now : Q) (s : State W) :
  exists s', script_run secrets autosave [] now s = (Ok NoCandidates, s') /\
    session_kept s s' /\ uploads (trace s') = uploads (trace s).
Proof.
  destruct (script_run_spec secrets autosave [] now s) as [o [s' [E R]]].
  inversion R as [s0 Hv Hb|s0 Hv Hc Hb|s0 Hv Ha Hc Hd Hb
                  |s0 s1 bytes Hne' Ha Hc Hd Hp Hb Hw
                  |s0 s1 bytes err Hne' Ha Hc Hd Hp Hb Hw Ew]; subst;
    try congruence.
  eexists. split; [exact E|]. split; [apply Hb | now apply steps_no_upload in Hb].
Qed.

(** X20: with auto-save switched off a run never writes and uploads
    nothing; the table and the save time of the session stay as they are,
    and so does a snapshot that exists: the baseline does not advance. *)
Theorem autosave_off_keeps_session (edited : Table) (now : Q) (s s' : State W)
        (o : Outcome) :
  snapshot_all s <> None ->
  script_run secrets false edited now s = (Ok o, s') ->
  wrote o = false /\ session_kept s s' /\ uploads (trace s') = uploads (trace s).
Proof.
  intros Hs H.
  destruct (script_run_spec secrets false edited now s) as [o2 [s2 [E R]]].
  rewrite E in H. injection H as -> ->.
  inversion R as [s0 Hv Hb|s0 Hv Hc Hb|s0 Hv Ha Hc Hd Hb
                  |s0 s1 bytes Hne' Ha Hc Hd Hp Hb Hw
                  |s0 s1 bytes err Hne' Ha Hc Hd Hp Hb Hw Ew]; subst;
    try discriminate.
  - split; [reflexivity|]. split; [apply Hb | now apply steps_no_upload in Hb].
  - split; [reflexivity|]. rewrite trace_init_snapshot.
    pose proof (steps_no_upload Hb) as U. destruct Hb as [K _].
    rewrite init_snapshot_set; [auto|].
    destruct K as [_ [_ K3]]. now rewrite K3.
Qed.

End ControllerMore.

Lemma first_draw_sets_baseline_witness :
  let s := mkState ([] : Scripted.World) [] None None
             [Scripted.jane; Scripted.amir] 0 None in
  let view := [Scripted.mark_seen Scripted.jane; Scripted.amir] in
  exists s', script_run Scripted.static_token true view 1000 s = (Ok NoWrite, s') /\
    snapshot_all s' = Some (with_key view) /\
    df s' = df s /\ last_save_ts s' = last_save_ts s /\
    uploads (trace s') = uploads (trace s).
Proof.
  cbv zeta.
  apply (@first_draw_sets_baseline _ _ Scripted.static_token true
           [Scripted.mark_seen Scripted.jane; Scripted.amir] 1000
           (mkState ([] : Scripted.World) [] None None
              [Scripted.jane; Scripted.amir] 0 None)).
  - reflexivity.
  - discriminate.
Defined.

Lemma autosave_off_keeps_session_witness :
  let s := Scripted.fresh_session [] [Scripted.jane; Scripted.amir] in
  let run := script_run Scripted.static_token false
               [Scripted.mark_seen Scripted.jane; Scripted.amir] 1000 s in
  fst run = Ok NoWrite /\ session_kept s (snd run) /\
  uploads (trace (snd run)) = uploads (trace s).
Proof.
  cbv zeta. split; [vm_compute; reflexivity|].
  refine (proj2 (@autosave_off_keeps_session _ _ Scripted.static_token
            [Scripted.mark_seen Scripted.jane; Scripted.amir] 1000
            (Scripted.fresh_session [] [Scripted.jane; Scripted.amir]) _ NoWrite _ _)).
  - discriminate.
  - vm_compute. reflexivity.
Defined.

(* ====================================================================== *)
(** * More on diff and merge                                               *)
(* ====================================================================== *)

Lemma NoDup_map_eq {A B : Type} (f : A -> B) (l : list A) (a b : A) :
  NoDup (map f l) -> In a l -> In b l -> f a = f b -> a = b.
Proof.
  induction l as [|x l IH]; simpl; intros Hnd Ha Hb E; [destruct Ha|].
  inversion Hnd as [|? ? Hnot Hnd']; subst.
  destruct Ha as [->|Ha], Hb as [->|Hb]; auto.
  - exfalso. apply Hnot. rewrite E. now apply in_map.
  - exfalso. apply Hnot. rewrite <- E. now apply in_map.
Qed.

Lemma with_key_keys (v : Table) : map _k (with_key v) = map _key v.
Proof. unfold with_key. rewrite map_map. reflexivity. Qed.

(** A view with one row per key has no changes against itself. *)
Lemma diff_self (v : Table) :
  NoDup (map _key v) -> _diff_rows (Some (with_key v)) (with_key v) = [].
Proof.
  intros Hnd. destruct v as [|r v]; [reflexivity|].
  apply nil_iff_no_member. intros c Hc.
  apply In_diff_rows in Hc as [Hc [[o [Ho [Hk Hf]]]|N]]; [| |discriminate].
  - apply Hf. f_equal. f_equal.
    apply (@NoDup_map_eq _ _ _k (with_key (r :: v))); auto.
    now rewrite with_key_keys.
  - apply N. exists c. auto.
Qed.

Section Settled.

Context {W : Type} {SV : Services W}.
Variable secrets : Secrets.

(** X21: after a committed save of a view that has one row per key, a
    further run on the same view finds nothing changed, at any time and
    with auto-save on or off: it writes nothing and changes nothing. *)
Theorem commit_then_clean (edited : Table) (now now' : Q) (autosave' : bool)
        (s s1 : State W) (n : nat) :
  NoDup (map _key edited) ->
  script_run secrets true edited now s = (Ok (Committed n), s1) ->
  exists s2, script_run secrets autosave' edited now' s1 = (Ok NoWrite, s2) /\
    session_kept s1 s2 /\ uploads (trace s2) = uploads (trace s1).
Proof.
  intros Hnd H.
  destruct (script_run_spec secrets true edited now s) as [o [s' [E R]]].
  rewrite E in H. injection H as -> ->.
  assert (A : edited <> [] /\ snapshot_all s1 = Some (with_key edited)).
  { inversion R; subst. split; [assumption | reflexivity]. }
  destruct A as [Hne Hs].
  assert (Hch : changes s1 edited = []).
  { unfold changes. rewrite Hs. now apply diff_self. }
  destruct (script_run_spec secrets autosave' edited now' s1) as [o2 [s2 [E2 R2]]].
  inversion R2 as [s0 Hv Hb|s0 Hv Hc Hb|s0 Hv Ha Hc Hd Hb
                   |s0 s3 bytes Hne' Ha Hc Hd Hp Hb Hw
                   |s0 s3 bytes err Hne' Ha Hc Hd Hp Hb Hw Ew]; subst;
    try congruence.
  eexists. split; [exact E2|]. rewrite trace_init_snapshot.
  pose proof (steps_no_upload Hb) as U. destruct Hb as [K _].
  rewrite init_snapshot_set; [auto|].
  destruct K as [_ [_ K3]]. rewrite K3, Hs. discriminate.
Qed.

(** X22: the frame write_state_df serialises for a canonical table has
    the seven columns in their fixed order, the identity cells as they
    are and every flag as the integer 0 or 1; every upload of the write
    carries the CSV text of that frame. *)
Theorem write_uploads_encoded_table (t : Table) (s : State W) :
  payload (df_of_table t) = Ok (to_csv (encoded t)) /\
  exists r s', write_state_df secrets (df_of_table t) s = (Ok r, s') /\
               steps (carries (to_csv (encoded t))) 2 s s'.
Proof.
  assert (P : payload (df_of_table t) = Ok (to_csv (encoded t))).
  { unfold payload. rewrite ensure_schema_df_of_table. cbn [rbind].
    assert (I : forall f, astype_int_col (flag_col f t) = Ok (int_col f t)).
    { intros f. unfold flag_col, int_col.
      induction t as [|r t IH]; simpl; [reflexivity|]. now rewrite IH. }
    unfold df_of_table, BOOL_COLS. cbn [flags_to_int].
    rewrite !get_col_cons. label_eqb. cbv iota. cbn [rbind]. rewrite I. cbn [rbind].
    rewrite !get_col_set_col, !get_col_cons. label_eqb. cbv iota. cbn [rbind].
    rewrite I. cbn [rbind].
    rewrite !get_col_set_col, !get_col_cons. label_eqb. cbv iota. cbn [rbind].
    rewrite I. cbn [rbind].
    rewrite !get_col_set_col, !get_col_cons. label_eqb. cbv iota. cbn [rbind].
    rewrite I. cbn [rbind].
    reflexivity. }
  split; [exact P|].
  destruct (write_state_df_returns secrets (df_of_table t) s)
    as [r [s' [bytes [E [_ [Hp Hs]]]]]].
  rewrite P in Hp. injection Hp as <-. eauto.
Qed.

End Settled.

Lemma identity_merge_row (m : KRow * option Flags) :
  identity (merge_row m) = identity (krow (fst m)).
Proof. reflexivity. Qed.





(** Two table rows that share a key, one changed row listed twice for
    it: the merge doubles both rows. *)
Example optimistic_merge_doubles :
  let twin := mkRow (VStr "JANE") (VStr "Doe") (VStr "https://x/cv.pdf")
                    Scripted.no_flags in
  let c := mkKRow (Scripted.mark_seen Scripted.jane) (_key Scripted.jane) in
  length (optimistic_merge [Scripted.jane; twin] [c; c]) = 4%nat.
Proof. reflexivity. Qed.

Lemma commit_then_clean_witness :
  let s := Scripted.fresh_session [] [Scripted.jane; Scripted.amir] in
  let view := [Scripted.mark_seen Scripted.jane; Scripted.amir] in
  let s1 := snd (script_run Scripted.static_token true view 1000 s) in
  exists s2, script_run Scripted.static_token true view 2000 s1 = (Ok NoWrite, s2) /\
    session_kept s1 s2 /\ uploads (trace s2) = uploads (trace s1).
Proof.
  cbv zeta.
  apply (@commit_then_clean _ _ Scripted.static_token
           [Scripted.mark_seen Scripted.jane; Scripted.amir] 1000 2000 true
           (Scripted.fresh_session [] [Scripted.jane; Scripted.amir]) _ 1).
  - vm_compute. repeat constructor; simpl; intuition discriminate.
  - vm_compute. reflexivity.
Defined.

(** X24: a view that holds two rows with the same key and different
    flags never settles: its diff against its own snapshot is not empty,
    so every run on it is a run with changes. *)
Theorem duplicate_keys_never_settle (v : Table) (r1 r2 : Row) :
  In r1 v -> In r2 v -> _key r1 = _key r2 -> flags r1 <> flags r2 ->
  _diff_rows (Some (with_key v)) (with_key v) <> [].
Proof.
  intros H1 H2 Hk Hf E.
  assert (Hne : with_key v <> []) by (destruct v; [destruct H1 | discriminate]).
  assert (Hin : In (mkKRow r1 (_key r1)) (_diff_rows (Some (with_key v)) (with_key v))).
  { apply In_diff_rows; [exact Hne|]. split.
    - unfold with_key. apply in_map_iff. eauto.
    - left. exists (mkKRow r2 (_key r2)). split.
      + unfold with_key. apply in_map_iff. eauto.
      + split; [symmetry; exact Hk | intros F; apply Hf; symmetry; exact F]. }
  rewrite E in Hin. destruct Hin.
Qed.

Lemma duplicate_keys_never_settle_witness :
  _diff_rows (Some (with_key [Scripted.jane; Scripted.mark_seen Scripted.jane]))
             (with_key [Scripted.jane; Scripted.mark_seen Scripted.jane]) <> [].
Proof.
  apply (@duplicate_keys_never_settle
           [Scripted.jane; Scripted.mark_seen Scripted.jane]
           Scripted.jane (Scripted.mark_seen Scripted.jane)).
  - now left.
  - right. now left.
  - reflexivity.
  - discriminate.
Defined.

(** X25: _build_dbx_client is memoised: once it has returned a client, a
    further call returns that same client and changes nothing, so it
    makes no call on the token endpoint. *)
Theorem build_client_memoised {W : Type} {SV : Services W} (secrets : Secrets)
        (s s1 : State W) (c : Dropbox) :
  _build_dbx_client secrets s = (Ok c, s1) ->
  _build_dbx_client secrets s1 = (Ok c, s1).
Proof.
  intros E.
  assert (K : cached_client s1 = Some c).
  { unfold _build_dbx_client in E. unfold bind at 1, get at 1 in E.
    destruct (cached_client s) as [c0|] eqn:Ec.
    - injection E as <- <-. exact Ec.
    - unfold bind at 1 in E.
      destruct ((if truthy (DROPBOX_ACCESS_TOKEN secrets)
                 then ret (DROPBOX_ACCESS_TOKEN secrets)
                 else _access_token_from_refresh secrets) s) as [[[t|]|e] s0];
        try discriminate.
      destruct (negb (t =? "")); [|discriminate].
      unfold bind, modify, ret in E. injection E as <- <-. reflexivity. }
  unfold _build_dbx_client, bind, get. rewrite K. reflexivity.
Qed.

Lemma build_client_memoised_witness :
  let s := mkState ([] : Scripted.World) [] None None [] 0 None in
  let first := _build_dbx_client Scripted.refresh_flow s in
  fst first = Ok (mkDropbox "fresh-token") /\
  _build_dbx_client Scripted.refresh_flow (snd first) =
  (Ok (mkDropbox "fresh-token"), snd first).
Proof.
  cbv zeta. split; [reflexivity|].
  apply (@build_client_memoised _ _ Scripted.refresh_flow
           (mkState ([] : Scripted.World) [] None None [] 0 None)).
  reflexivity.
Defined.

Lemma script_run_targets_path_witness :
  let s := Scripted.running [None; Some (AuthError "expired_access_token")]
             [Scripted.jane] [Scripted.jane] in
  let run := script_run Scripted.refresh_flow true
               [Scripted.mark_seen Scripted.jane] 1000 s in
  emits (targets (Some "/fair/state.csv")) s (snd run) /\
  length (trace (snd run)) = 5%nat.
Proof.
  cbv zeta. split; [|vm_compute; reflexivity].
  refine (@script_run_targets_path _ _ Scripted.refresh_flow true
            [Scripted.mark_seen Scripted.jane] 1000
            (Scripted.running [None; Some (AuthError "expired_access_token")]
               [Scripted.jane] [Scripted.jane]) _ _ _).
  apply surjective_pairing.
Defined.

(* ====================================================================== *)
(** * Debounce: what the two runs write                                    *)
(* ====================================================================== *)

Section Debounce.

Context {W : Type} {SV : Services W}.
Variable secrets : Secrets.

(** A write that reports success has made the upload of its bytes to the
    configured path its last call; a retry re-sends the same bytes. *)
Lemma write_success_upload_last (full_df : DataFrame) (s s' : State W) :
  write_state_df secrets full_df s = (Ok (true, None), s') ->
  exists bytes evs d p,
    payload full_df = Ok bytes /\ STATE_DBX_PATH secrets = Some p /\
    trace s' = trace s ++ evs ++ [EvUpload d bytes p] /\
    Forall (carries bytes) evs /\ (uploads evs <= 1)%nat /\ session_kept s s'.
Proof.
  intros E.
  destruct (payload_ok (SV := SV) full_df) as [bytes Hp].
  pose proof (@post_write_state_df _ _ secrets bytes full_df Hp _ _ _ E)
    as [K [all [Tall [Fall Uall]]]].
  rewrite write_state_df_unfold, Hp in E.
  destruct (DBX s) as [d0|]; [|discriminate].
  assert (L : exists evs d p, STATE_DBX_PATH secrets = Some p /\
                trace s' = trace s ++ evs ++ [EvUpload d bytes p]).
  { pose proof (upload_with_auto_refresh_cases secrets bytes
                  (STATE_DBX_PATH secrets) s) as H.
    destruct (attempt bytes (STATE_DBX_PATH secrets) s) as [[a|[m|m|m]] s1] eqn:E1;
      try (rewrite H in E; discriminate).
    - rewrite H in E. injection E as <-.
      apply attempt_ok_trace in E1 as [evs [d [p [Hq [T _]]]]].
      exists evs, d, p. split; assumption.
    - pose proof (@post_attempt _ _ bytes _ _ _ _ E1) as [_ [e1 [T1 _]]].
      destruct (_refresh_dbx_client secrets s1) as [[c|e2] s2] eqn:E2;
        [|rewrite H in E; discriminate].
      pose proof (@post_refresh _ _ secrets bytes _ _ _ E2) as [_ [e2 [T2 _]]].
      destruct (attempt bytes (STATE_DBX_PATH secrets) (set_DBX (Some c) s2))
        as [[a|e3] s3] eqn:E3; [|rewrite H in E; discriminate].
      rewrite H in E. injection E as <-.
      apply attempt_ok_trace in E3 as [evs [d [p [Hq [T3 _]]]]].
      exists (e1 ++ e2 ++ evs), d, p. split; [exact Hq|].
      rewrite T3. cbn [trace set_DBX]. rewrite T2, T1, <- !app_assoc. reflexivity. }
  destruct L as [evs [d [p [Hq T]]]].
  exists bytes, evs, d, p. repeat split; try assumption.
  - rewrite Tall in T. apply app_inv_head in T. subst all.
    apply Forall_app in Fall. apply Fall.
  - rewrite Tall in T. apply app_inv_head in T. subst all.
    rewrite uploads_app in Uall. unfold uploads at 2 in Uall. simpl in Uall. lia.
  - apply K.
  - apply K.
  - apply K.
Qed.

(** A run that ends Committed has booted, merged, and got (True, None)
    from the write. *)
Lemma committed_run (autosave : bool) (v : Table) (t : Q) (s s' : State W) (n : nat) :
  script_run secrets autosave v t s = (Ok (Committed n), s') ->
  exists s0 s1,
    steps (carries "") 0 s s0 /\
    write_state_df secrets
      (df_of_table (optimistic_merge (df s) (changes s v)))
      (set_df (optimistic_merge (df s) (changes s v)) s0) = (Ok (true, None), s1) /\
    s' = set_snapshot_all (Some (with_key v)) (set_last_save_ts t s1).
Proof.
  intros H. destruct (boot_returns secrets s) as [s0 [Eb Hb]].
  unfold script_run, bind in H. rewrite Eb in H.
  destruct v as [|r0 v0]; [discriminate|].
  set (v := r0 :: v0) in *. clearbody v.
  rewrite autosave_block_unfold in H. cbv zeta in H.
  pose proof (proj1 (Hb "")) as K.
  rewrite (kept_changes v K), (kept_due t K) in H.
  destruct (autosave && _); [|discriminate].
  destruct (due s t); [|discriminate].
  destruct K as [K1 _]. rewrite K1 in H.
  destruct (write_state_df_returns secrets
              (df_of_table (optimistic_merge (df s) (changes s v)))
              (set_df (optimistic_merge (df s) (changes s v)) s0))
    as [[ok err] [s1 [bytes [Ew [Hr _]]]]].
  rewrite Ew in H. destruct ok; [|discriminate].
  injection H as _ <-. exists s0, s1. split; [apply Hb|]. split; [|reflexivity].
  rewrite Ew. destruct Hr as [Hr|[m [Hr _]]]; [now rewrite Hr | discriminate].
Qed.

(** What a run does when its view has changes and the debounce interval
    has elapsed. *)
Lemma due_run (s s1 : State W) (v : Table) (t : Q) (o : Outcome) :
  changes s v <> [] ->
  due s t = true ->
  script_run secrets true v t s = (Ok o, s1) ->
  wrote o = true /\ last_save_ts s1 = t /\ snapshot_all s1 <> None /\
  (exists bytes evs,
      payload (df_of_table (optimistic_merge (df s) (changes s v))) = Ok bytes /\
      trace s1 = trace s ++ evs /\ Forall (carries bytes) evs /\
      (uploads evs <= 2)%nat) /\
  (forall n, o = Committed n ->
      df s1 = optimistic_merge (df s) (changes s v) /\
      snapshot_all s1 = Some (with_key v) /\
      exists bytes evs d p,
        payload (df_of_table (optimistic_merge (df s) (changes s v))) = Ok bytes /\
        STATE_DBX_PATH secrets = Some p /\
        trace s1 = trace s ++ evs ++ [EvUpload d bytes p] /\
        Forall (carries bytes) evs /\ (uploads evs <= 1)%nat) /\
  (forall err, o = RolledBack err ->
      df s1 = df s /\ snapshot_all s1 = snapshot_all s).
Proof.
  intros Hch Hdue H.
  destruct (script_run_spec secrets true v t s) as [o' [s' [E R]]].
  rewrite E in H. injection H as -> ->.
  assert (A : wrote o = true /\ last_save_ts s1 = t /\ snapshot_all s1 <> None /\
              (exists bytes evs,
                payload (df_of_table (optimistic_merge (df s) (changes s v))) = Ok bytes /\
                trace s1 = trace s ++ evs /\ Forall (carries bytes) evs /\
                (uploads evs <= 2)%nat) /\
              (forall err, o = RolledBack err ->
                 df s1 = df s /\ snapshot_all s1 = snapshot_all s)).
  { inversion R as [s0 Hv Hb|s0 Hv Hc Hb|s0 Hv Ha Hc Hd Hb
                    |s0 s2 bytes Hne Ha Hc Hd Hp Hb Hw
                    |s0 s2 bytes err Hne Ha Hc Hd Hp Hb Hw Ew]; subst.
    - exfalso. apply Hch. apply changes_nil.
    - exfalso. destruct Hc; congruence.
    - congruence.
    - split; [reflexivity|]. split; [reflexivity|]. split; [discriminate|].
      split; [|discriminate].
      exists bytes.
      destruct Hb as [_ [e1 [T1 [F1 U1]]]]. destruct Hw as [_ [e2 [T2 [F2 U2]]]].
      exists (e1 ++ e2). cbn [trace set_snapshot_all set_last_save_ts set_df] in *.
      rewrite T2, T1, app_assoc, uploads_app.
      repeat split; [exact Hp | now apply Forall_app | lia].
    - assert (S1 : snapshot_all (set_df (df s) (set_last_save_ts t s2)) = snapshot_all s).
      { cbn [snapshot_all set_df set_last_save_ts].
        destruct Hw as [[_ [_ H3]] _]. destruct Hb as [[_ [_ K3]] _].
        rewrite H3. cbn [snapshot_all set_df]. exact K3. }
      split; [reflexivity|]. split; [reflexivity|]. split.
      + rewrite S1. destruct (changes_need_snapshot s v Hc) as [p [Hp' _]].
        rewrite Hp'. discriminate.
      + split.
        * exists bytes.
          destruct Hb as [_ [e1 [T1 [F1 U1]]]]. destruct Hw as [_ [e2 [T2 [F2 U2]]]].
          exists (e1 ++ e2). cbn [trace set_last_save_ts set_df] in *.
          rewrite T2, T1, app_assoc, uploads_app.
          repeat split; [exact Hp | now apply Forall_app | lia].
        * intros err0 _. split; [reflexivity | exact S1]. }
  destruct A as [A1 [A2 [A3 [A4 A5]]]].
  repeat (split; [assumption|]). split; [|exact A5].
  intros n ->.
  destruct (committed_run _ _ _ _ E) as [s0 [s2 [Hb [Ew ->]]]].
  apply write_success_upload_last in Ew
    as [bytes [evs [d [p [Hp [Hq [T [F [U K]]]]]]]]].
  cbn [df snapshot_all trace set_snapshot_all set_last_save_ts].
  split; [destruct K as [K1 _]; rewrite K1; reflexivity|].
  split; [reflexivity|].
  destruct Hb as [_ [e0 [T0 [_ U0]]]].
  exists bytes, (e0 ++ evs), d, p. repeat split; try assumption.
  - rewrite T. cbn [trace set_df]. rewrite T0, <- !app_assoc. reflexivity.
  - apply Forall_app. split; [|exact F].
    apply Forall_forall. intros e He.
    assert (Hu : is_upload e = false).
    { destruct (is_upload e) eqn:Eu; [|reflexivity]. exfalso.
      unfold uploads in U0.
      assert (Hin : In e (filter is_upload e0)) by (apply filter_In; auto).
      destruct (filter is_upload e0); [destruct Hin | simpl in U0; lia]. }
    destruct e; try exact I. discriminate.
  - rewrite uploads_app. lia.
Qed.

End Debounce.

(** C9, amended: with the debounce interval at 0.35 s and auto-save on, a
    run whose view has changes and that comes at least 0.35 s after the
    last save calls the write at once.  When that write succeeds, the last
    remote call of the run is the upload, to the configured path, of the
    table merged with the changes of that view only (preceded by at most
    one failed upload of the same bytes), and that table and view become
    the table and snapshot of the session; when it fails the table is
    rolled back.  A run that comes 0.1 s later calls no write and makes no
    upload, whatever its view holds, and leaves table, snapshot and save
    time as they are: over the two runs there is exactly one write, and
    the later edit is not in it.  That edit is not lost: the next run at
    least 0.35 s after the first write calls the write, and on success
    uploads the table merged with all changes of its view.  A run that
    comes 0.4 s after the first, with changes against the snapshot, calls
    the write again and on success uploads again: two writes. *)
Theorem debounce_two_edits {W : Type} {SV : Services W} (secrets : Secrets)
        (s s1 : State W) (v1 v2 : Table) (t1 : Q) (o1 : Outcome) :
  changes s v1 <> [] ->
  due s t1 = true ->
  script_run secrets true v1 t1 s = (Ok o1, s1) ->
  wrote o1 = true /\ last_save_ts s1 = t1 /\
  (exists bytes evs,
      payload (df_of_table (optimistic_merge (df s) (changes s v1))) = Ok bytes /\
      trace s1 = trace s ++ evs /\ Forall (carries bytes) evs /\
      (uploads evs <= 2)%nat) /\
  (forall n, o1 = Committed n ->
      df s1 = optimistic_merge (df s) (changes s v1) /\
      snapshot_all s1 = Some (with_key v1) /\
      exists bytes evs d p,
        payload (df_of_table (optimistic_merge (df s) (changes s v1))) = Ok bytes /\
        STATE_DBX_PATH secrets = Some p /\
        trace s1 = trace s ++ evs ++ [EvUpload d bytes p] /\
        Forall (carries bytes) evs /\ (uploads evs <= 1)%nat) /\
  (forall err, o1 = RolledBack err ->
      df s1 = df s /\ snapshot_all s1 = snapshot_all s) /\
  (forall o2 s2,
      script_run secrets true v2 (t1 + 0.1) s1 = (Ok o2, s2) ->
      wrote o2 = false /\ uploads (trace s2) = uploads (trace s1) /\
      df s2 = df s1 /\ snapshot_all s2 = snapshot_all s1 /\
      last_save_ts s2 = t1 /\
      (changes s1 v2 <> [] ->
       forall t3 o3 s3,
         Qle_bool AUTOSAVE_DEBOUNCE_SEC (t3 - t1) = true ->
         script_run secrets true v2 t3 s2 = (Ok o3, s3) ->
         wrote o3 = true /\
         forall n, o3 = Committed n ->
           df s3 = optimistic_merge (df s1) (changes s1 v2) /\
           exists bytes evs d p,
             payload (df_of_table (optimistic_merge (df s1) (changes s1 v2))) = Ok bytes /\
             STATE_DBX_PATH secrets = Some p /\
             trace s3 = trace s2 ++ evs ++ [EvUpload d bytes p] /\
             Forall (carries bytes) evs /\ (uploads evs <= 1)%nat)) /\
  (changes s1 v2 <> [] ->
   forall o2 s2,
      script_run secrets true v2 (t1 + 0.4) s1 = (Ok o2, s2) ->
      wrote o2 = true /\ last_save_ts s2 = t1 + 0.4 /\
      forall n, o2 = Committed n ->
        df s2 = optimistic_merge (df s1) (changes s1 v2) /\
        snapshot_all s2 = Some (with_key v2) /\
        exists bytes evs d p,
          payload (df_of_table (optimistic_merge (df s1) (changes s1 v2))) = Ok bytes /\
          STATE_DBX_PATH secrets = Some p /\
          trace s2 = trace s1 ++ evs ++ [EvUpload d bytes p] /\
          Forall (carries bytes) evs /\ (uploads evs <= 1)%nat).
Proof.
  intros Hch Hdue H.
  destruct (due_run secrets s v1 t1 Hch Hdue H) as [A1 [A2 [A3 [A4 [A5 A6]]]]].
  repeat (split; [assumption|]). split.
  - intros o2 s2 H2.
    destruct (script_run_spec secrets true v2 (t1 + 0.1) s1) as [o [s' [E2 R2]]].
    rewrite E2 in H2. injection H2 as -> ->.
    assert (Hin : due s1 (t1 + 0.1) = false).
    { unfold due. rewrite A2. apply inside_window. }
    assert (B : wrote o2 = false /\ session_kept s1 s2 /\
                uploads (trace s2) = uploads (trace s1)).
    { inversion R2 as [s0 Hv Hb|s0 Hv Hc Hb|s0 Hv Ha Hc Hd Hb| |]; subst;
        try congruence.
      - split; [reflexivity|]. split; [apply Hb | eapply steps_no_upload, Hb].
      - split; [reflexivity|]. rewrite trace_init_snapshot.
        pose proof (steps_no_upload Hb) as U. destruct Hb as [K _].
        rewrite init_snapshot_set; [auto|].
        destruct K as [_ [_ K3]]. now rewrite K3.
      - split; [reflexivity|]. split; [apply Hb | eapply steps_no_upload, Hb]. }
    destruct B as [B1 [[K1 [K2 K3]] B3]].
    repeat (split; [assumption|]). split; [congruence|].
    intros Hch2 t3 o3 s3 Hd3 H3.
    assert (C2 : changes s2 v2 = changes s1 v2) by (unfold changes; now rewrite K3).
    assert (D2 : due s2 t3 = true) by (unfold due; now rewrite K2, A2).
    assert (Hc2 : changes s2 v2 <> []) by now rewrite C2.
    destruct (due_run secrets s2 v2 t3 Hc2 D2 H3) as [W3 [_ [_ [_ [C3 _]]]]].
    split; [exact W3|]. intros n Hn.
    destruct (C3 n Hn) as [Hdf [_ Hup]]. rewrite C2, K1 in Hdf, Hup. auto.
  - intros Hch2 o2 s2 H2.
    assert (Hout : due s1 (t1 + 0.4) = true).
    { unfold due. rewrite A2. apply outside_window. }
    destruct (due_run secrets s1 v2 (t1 + 0.4) Hch2 Hout H2)
      as [W2 [T2 [_ [_ [C2 _]]]]].
    auto.
Qed.

Lemma debounce_two_edits_witness :
  let s0 := Scripted.fresh_session [] [Scripted.jane; Scripted.amir] in
  let edit1 := [Scripted.mark_seen Scripted.jane; Scripted.amir] in
  let edit12 := [Scripted.mark_seen Scripted.jane;
                 Scripted.mark_contacted Scripted.amir] in
  let run1 := script_run Scripted.static_token true edit1 1000 s0 in
  let near := script_run Scripted.static_token true edit12 (1000 + 0.1) (snd run1) in
  let late := script_run Scripted.static_token true edit12 (1000 + 0.5) (snd near) in
  let far := script_run Scripted.static_token true edit12 (1000 + 0.4) (snd run1) in
  let up := EvUpload (mkDropbox "static-token") in
  fst run1 = Ok (Committed 1) /\
  trace (snd run1) = [up (Scripted.saved_csv edit1) "/state.csv"] /\
  fst near = Ok Debounced /\
  trace (snd near) = [up (Scripted.saved_csv edit1) "/state.csv"] /\
  uploads (trace (snd near)) = uploads (trace (snd run1)) /\
  fst late = Ok (Committed 1) /\
  trace (snd late) = [up (Scripted.saved_csv edit1) "/state.csv";
                      up (Scripted.saved_csv edit12) "/state.csv"] /\
  fst far = Ok (Committed 1) /\
  trace (snd far) = [up (Scripted.saved_csv edit1) "/state.csv";
                     up (Scripted.saved_csv edit12) "/state.csv"] /\
  df (snd far) = edit12 /\
  last_save_ts (snd far) = 1000 + 0.4.
Proof.
  cbv zeta.
  set (s0 := Scripted.fresh_session [] [Scripted.jane; Scripted.amir]).
  set (edit1 := [Scripted.mark_seen Scripted.jane; Scripted.amir]).
  set (edit12 := [Scripted.mark_seen Scripted.jane;
                  Scripted.mark_contacted Scripted.amir]).
  set (run1 := script_run Scripted.static_token true edit1 1000 s0).
  destruct (@debounce_two_edits _ _ Scripted.static_token s0 (snd run1)
              edit1 edit12 1000 (Committed 1))
    as [_ [_ [_ [_ [_ [Hnear Hfar]]]]]].
  - vm_compute. discriminate.
  - vm_compute. reflexivity.
  - vm_compute. reflexivity.
  - split; [vm_compute; reflexivity|]. split; [vm_compute; reflexivity|].
    split; [vm_compute; reflexivity|]. split; [vm_compute; reflexivity|].
    split.
    { refine (proj1 (proj2 (Hnear Debounced _ _))). vm_compute. reflexivity. }
    split; [vm_compute; reflexivity|]. split; [vm_compute; reflexivity|].
    split; [vm_compute; reflexivity|]. split; [vm_compute; reflexivity|].
    assert (Hc : changes (snd run1) edit12 <> []) by (vm_compute; discriminate).
    assert (Ef : script_run Scripted.static_token true edit12 (1000 + 0.4) (snd run1)
                 = (Ok (Committed 1),
                    snd (script_run Scripted.static_token true edit12 (1000 + 0.4)
                           (snd run1)))) by (vm_compute; reflexivity).
    destruct (Hfar Hc _ _ Ef) as [_ [Ht Hcm]].
    split; [|exact Ht].
    destruct (Hcm 1%nat eq_refl) as [Hdf _]. rewrite Hdf. vm_compute. reflexivity.
Defined.
